(** * Vicon utilities: header reconstruction, marker resolution, motion quantity

    A shallow embedding of [notebooks/src_vicon_utils.py] and the
    properties of its three functions [read_vicon_csv], [find_xyz_cols]
    and [motion_quantity_point]. *)

From Stdlib Require Import String Ascii List Bool Arith NArith ZArith Lia.
From Stdlib Require Import Permutation.
From Stdlib Require Import Floats.SpecFloat.
Import ListNotations.
Local Open Scope string_scope.

(** ** Python [str] operations

    A [str] is modelled as a [string] whose characters are the code points
    0..255.  On those code points the character classes below are the ones
    CPython uses for [str.isspace], [str.isalnum] and [str.lower], which are
    also the ones the [re] module uses for [\s], [\b] and [re.IGNORECASE]. *)

Module PyStr.

Definition code (c : ascii) : N := N_of_ascii c.

Definition in_range (lo hi n : N) : bool := ((lo <=? n) && (n <=? hi))%N.

(** [str.isspace] / [\s]: TAB..CR, FS..US, SPACE, NEL, NBSP. *)
Definition isspace (c : ascii) : bool :=
  let n := code c in
  in_range 9 13 n || in_range 28 32 n || (n =? 133)%N || (n =? 160)%N.

(** [str.isalnum]: digits, letters, and the Latin-1 letters and numerics. *)
Definition isalnum (c : ascii) : bool :=
  let n := code c in
  in_range 48 57 n || in_range 65 90 n || in_range 97 122 n
  || (n =? 170)%N || in_range 178 179 n || (n =? 181)%N
  || in_range 185 186 n || in_range 188 190 n
  || in_range 192 214 n || in_range 216 246 n || in_range 248 255 n.

(** A word character of [\b]: alphanumeric or underscore. *)
Definition is_word (c : ascii) : bool := isalnum c || (code c =? 95)%N.

(** [str.lower] on one character. *)
Definition lower (c : ascii) : ascii :=
  let n := code c in
  if in_range 65 90 n || (in_range 192 222 n && negb (n =? 215)%N)
  then ascii_of_N (n + 32) else c.

(** Two characters match under [re.IGNORECASE]. *)
Definition eq_ci (a b : ascii) : bool := (lower a =? lower b)%char.

(** [s.lstrip()], [s.rstrip()] and [s.strip()]. *)
Fixpoint lstrip (s : string) : string :=
  match s with
  | String c s' => if isspace c then lstrip s' else s
  | EmptyString => EmptyString
  end.

Fixpoint rstrip (s : string) : string :=
  match s with
  | EmptyString => EmptyString
  | String c s' =>
      match rstrip s' with
      | EmptyString => if isspace c then EmptyString else String c EmptyString
      | r => String c r
      end
  end.

Definition strip (s : string) : string := rstrip (lstrip s).

(** [s.replace(" ", "")]. *)
Fixpoint remove_spaces (s : string) : string :=
  match s with
  | EmptyString => EmptyString
  | String c s' =>
      if (c =? " ")%char then remove_spaces s' else String c (remove_spaces s')
  end.

(** Every character of [s] satisfies [p]. *)
Fixpoint all_chars (p : ascii -> bool) (s : string) : bool :=
  match s with
  | EmptyString => true
  | String c s' => p c && all_chars p s'
  end.

Definition is_empty (s : string) : bool :=
  match s with EmptyString => true | _ => false end.

End PyStr.

(** ** The marker resolver: [find_xyz_cols] *)

Module Resolver.
Import PyStr.

Inductive Axis : Type := AX | AY | AZ.

(** The group [([XYZ])] under [re.IGNORECASE], followed by [.upper()]. *)
Definition axis_of_char (c : ascii) : option Axis :=
  if eq_ci "X" c then Some AX
  else if eq_ci "Y" c then Some AY
  else if eq_ci "Z" c then Some AZ
  else None.

(** [\b] at a position whose previous character is a word character:
    the end of the string, or a following character that is not one. *)
Definition at_boundary (rest : string) : bool :=
  match rest with
  | EmptyString => true
  | String c _ => negb (is_word c)
  end.

(** The escaped token, matched literally and case-insensitively; returns
    what follows it. *)
Fixpoint match_literal (tok s : string) : option string :=
  match tok with
  | EmptyString => Some s
  | String t tok' =>
      match s with
      | String c s' => if eq_ci t c then match_literal tok' s' else None
      | EmptyString => None
      end
  end.

(** [TOKEN_([XYZ])\b] at the head of [s]. *)
Definition match_tail (token s : string) : option Axis :=
  match match_literal token s with
  | Some (String u (String a rest)) =>
      if (u =? "_")%char then
        match axis_of_char a with
        | Some ax => if at_boundary rest then Some ax else None
        | None => None
        end
      else None
  | _ => None
  end.

(** [\s*TOKEN_([XYZ])\b]: the star is greedy, and gives characters back
    when the rest does not match. *)
Fixpoint match_ws_tail (token s : string) : option Axis :=
  match s with
  | String c s' =>
      if isspace c then
        match match_ws_tail token s' with
        | Some ax => Some ax
        | None => match_tail token s
        end
      else match_tail token s
  | EmptyString => match_tail token s
  end.

(** [(?:^|:)\s*TOKEN_([XYZ])\b] at one position; [at_start] says whether
    the position is the beginning of the string. *)
Definition match_at (token : string) (at_start : bool) (s : string)
  : option Axis :=
  match (if at_start then match_ws_tail token s else None) with
  | Some ax => Some ax
  | None =>
      match s with
      | String c s' => if (c =? ":")%char then match_ws_tail token s' else None
      | EmptyString => None
      end
  end.

(** [pat.search]: the leftmost position at which the pattern matches. *)
Fixpoint search_from (token : string) (at_start : bool) (s : string)
  : option Axis :=
  match match_at token at_start s with
  | Some ax => Some ax
  | None =>
      match s with
      | String _ s' => search_from token false s'
      | EmptyString => None
      end
  end.

Definition pat_search (token c_str : string) : option Axis :=
  search_from token true c_str.

(** The dictionary [found], keyed by "X", "Y" and "Z". *)
Record Found : Type := mkFound {
  fX : option string;
  fY : option string;
  fZ : option string
}.

Definition found_empty : Found := mkFound None None None.

Definition found_get (ax : Axis) (f : Found) : option string :=
  match ax with AX => fX f | AY => fY f | AZ => fZ f end.

Definition found_set (ax : Axis) (c : string) (f : Found) : Found :=
  match ax with
  | AX => mkFound (Some c) (fY f) (fZ f)
  | AY => mkFound (fX f) (Some c) (fZ f)
  | AZ => mkFound (fX f) (fY f) (Some c)
  end.

(** The axis a column is matched for, if any. *)
Definition col_axis (token c : string) : option Axis :=
  pat_search token (remove_spaces c).

(** One iteration of [for c in columns]. *)
Definition step (token : string) (found : Found) (c : string) : Found :=
  let c_str := remove_spaces c in
  match pat_search token c_str with
  | Some axis =>
      match found_get axis found with
      | None => found_set axis c found
      | Some old =>
          if (String.length c_str <? String.length old)%nat
          then found_set axis c found
          else found
      end
  | None => found
  end.

Definition find_found (columns : list string) (token : string) : Found :=
  fold_left (step token) columns found_empty.

Definition find_xyz_cols (columns : list string) (token : string)
  : option string * option string * option string :=
  let found := find_found columns token in
  (fX found, fY found, fZ found).

End Resolver.

(** ** Exceptions and results

    A call either returns a value or raises; [inl e] is the raised
    exception. *)

Inductive PyExc : Type :=
| StopIteration        (* next() on an exhausted iterator *)
| CsvError             (* csv.Error *)
| UnicodeDecodeError
| ParserError          (* pandas.errors.ParserError *)
| ValueError
| KeyError
| MalformedHeaderError (* named by the specification; no statement of the
                          module raises or defines it *).

Definition Result (A : Type) : Type := (PyExc + A)%type.

Definition ret {A : Type} (a : A) : Result A := inr a.

Definition bind {A B : Type} (r : Result A) (k : A -> Result B) : Result B :=
  match r with
  | inl e => inl e
  | inr a => k a
  end.

Notation "x <- r ;; k" := (bind r (fun x => k))
  (at level 61, r at next level, right associativity).

(** ** float64 values

    numpy's float64 is IEEE 754 binary64: the specification floats with
    precision 53 and maximal exponent 1024.  pandas' missing value is NaN. *)

Module F64.

Definition prec : Z := 53.
Definition emax : Z := 1024.

Definition t : Type := spec_float.

Definition nan : t := S754_nan.
Definition zero : t := S754_zero false.
Definition add : t -> t -> t := SFadd prec emax.
Definition sub : t -> t -> t := SFsub prec emax.
Definition mul : t -> t -> t := SFmul prec emax.
Definition sqrt : t -> t := SFsqrt prec emax.

(** [np.isnan] and [np.isfinite]. *)
Definition isnan (x : t) : bool :=
  match x with S754_nan => true | _ => false end.

Definition isfinite (x : t) : bool :=
  match x with
  | S754_zero _ | S754_finite _ _ _ => true
  | S754_infinity _ | S754_nan => false
  end.

(** The float64 of an integer, rounded to nearest even. *)
Definition of_Z (z : Z) : t := binary_normalize prec emax z 0 false.

End F64.

(** ** Tables

    A [DataFrame] holds its row count and its labelled columns, in column
    order.  A cell is a float64 value, NaN being the missing value, or a
    text, as [pd.read_csv] leaves in a column that is not numeric. *)

Module Table.

Inductive Cell : Type :=
| Num (x : F64.t)
| Text (s : string).

Definition Column : Type := (string * list Cell)%type.

(** [pd.isna] of a cell. *)
Definition isna (c : Cell) : bool :=
  match c with
  | Num x => F64.isnan x
  | Text _ => false
  end.

(** The cell holds a number. *)
Definition is_num (c : Cell) : bool :=
  match c with
  | Num _ => true
  | Text _ => false
  end.

Record DataFrame : Type := mkDataFrame {
  nrows : nat;
  cols : list Column
}.

Definition labels (df : DataFrame) : list string := map fst (cols df).

(** Every value of the column is missing. *)
Definition all_missing (vs : list Cell) : bool := forallb isna vs.

(** [df.dropna(axis=1, how="all")]: keep the columns that hold at least
    one value that is not missing. *)
Definition dropna_all (df : DataFrame) : DataFrame :=
  mkDataFrame (nrows df)
              (filter (fun c => negb (all_missing (snd c))) (cols df)).

(** [df[[X, Y, Z]]]: for each requested label the columns carrying it;
    a label carried by no column raises [KeyError]. *)
Definition columns_named (df : DataFrame) (l : string) : list Column :=
  filter (fun c => (fst c =? l)%string) (cols df).

Fixpoint select (df : DataFrame) (ls : list string) : Result (list Column) :=
  match ls with
  | [] => ret []
  | l :: ls' =>
      match columns_named df l with
      | [] => inl KeyError
      | cs => rest <- select df ls' ;; ret (cs ++ rest)%list
      end
  end.

(** The results of a list of calls: the first exception, or all values. *)
Fixpoint collect {A : Type} (rs : list (Result A)) : Result (list A) :=
  match rs with
  | [] => ret []
  | r :: rs' => a <- r ;; l <- collect rs' ;; ret (a :: l)
  end.

End Table.

(** ** The header reconstructor and table loader: [read_vicon_csv] *)

Module Header.
Import PyStr.

(** [row += [""] * (n - len(row))]. *)
Definition pad (row : list string) (n : nat) : list string :=
  (row ++ repeat "" (n - length row))%list.

(** One iteration of the forward-fill loop; the state is [(filled, last)]. *)
Definition fill_step (st : list string * string) (m : string)
  : list string * string :=
  let '(filled, last) := st in
  let m := strip m in
  if is_empty m then ((filled ++ [last])%list, last)
  else ((filled ++ [m])%list, m).

Definition forward_fill (marker_row : list string) : list string :=
  fst (fold_left fill_step marker_row ([], "")).

(** The same scan by recursion on the row, [last] being the value carried
    into it. *)
Fixpoint fill_from (last : string) (row : list string) : list string :=
  match row with
  | [] => []
  | m :: row' =>
      let m := strip m in
      if is_empty m then last :: fill_from last row'
      else m :: fill_from m row'
  end.

(** The trimmed cell of the marker-name row at a position; positions past
    the end of the row hold the padding. *)
Definition cell (marker_row : list string) (k : nat) : string :=
  strip (nth k marker_row "").

(** One iteration of the loop building the flat column names. *)
Definition colname (m a : string) : string :=
  let m := strip m in
  let a := strip a in
  if (a =? "Frame") || (a =? "Sub Frame") then a
  else if (a =? "X") || (a =? "Y") || (a =? "Z") then m ++ "_" ++ a
  else if is_empty m then a else m.

(** The marker names in use, one per position of the padded header. *)
Definition filled_markers (marker_row axis_row : list string) : list string :=
  let n := Nat.max (length marker_row) (length axis_row) in
  forward_fill (pad marker_row n).

Definition colnames (marker_row axis_row : list string) : list string :=
  let n := Nat.max (length marker_row) (length axis_row) in
  let filled := forward_fill (pad marker_row n) in
  map (fun ma => colname (fst ma) (snd ma)) (combine filled (pad axis_row n)).

End Header.

Module Loader.
Import Table Header.

Section Reader.

(** [next(reader)] of [csv.reader] on the lines still unread: the next
    record and the lines left, or the exception raised. *)
Variable csv_next : list string -> Result (list string * list string).

(** [pd.read_csv(csv_path, skiprows=5, header=None, names=colnames,
    engine="python")] on the lines of the file. *)
Variable pd_read_csv : list string -> list string -> Result DataFrame.

(** [[next(reader) for _ in range(n)]]. *)
Fixpoint next_n (n : nat) (lines : list string)
  : Result (list (list string)) :=
  match n with
  | O => ret []
  | S k =>
      rec <- csv_next lines ;;
      rows <- next_n k (snd rec) ;;
      ret (fst rec :: rows)
  end.

Definition read_header (lines : list string) : Result (list string) :=
  header_lines <- next_n 5 lines ;;
  let marker_row := nth 2 header_lines [] in
  let axis_row := nth 3 header_lines [] in
  ret (colnames marker_row axis_row).

Definition read_vicon_csv (lines : list string) : Result DataFrame :=
  names <- read_header lines ;;
  df <- pd_read_csv lines names ;;
  ret (dropna_all df).

End Reader.

End Loader.

(** ** A reader for plain files

    The two library readers, and [float], on files that hold no quote
    character, whose data rows have as many fields as the header, and
    whose data cells are unsigned decimal integers, empty, or texts that
    are no numbers; [lines] are the lines of the file without their
    terminators.  They serve to run the functions on concrete files. *)

Module Plain.
Import PyStr Table.

(** The fields of one line, separated by [","]. *)
Fixpoint split_comma (s : string) : list string :=
  match s with
  | EmptyString => [""]
  | String c s' =>
      if (c =? ",")%char then "" :: split_comma s'
      else
        match split_comma s' with
        | f :: fs => String c f :: fs
        | [] => [String c ""]
        end
  end.

(** A record of the reader: an empty line gives the empty record. *)
Definition record_of (line : string) : list string :=
  if is_empty line then [] else split_comma line.

Definition csv_next (lines : list string)
  : Result (list string * list string) :=
  match lines with
  | [] => inl StopIteration
  | l :: rest => ret (record_of l, rest)
  end.

Fixpoint digits_value (acc : Z) (s : string) : option Z :=
  match s with
  | EmptyString => Some acc
  | String c s' =>
      if in_range 48 57 (code c)
      then digits_value (10 * acc + Z.of_N (code c - 48)) s'
      else None
  end.

(** [float(s)] on a text of decimal digits; any other text is rejected. *)
Definition float_of_str (s : string) : option F64.t :=
  match s with
  | EmptyString => None
  | _ => option_map F64.of_Z (digits_value 0 s)
  end.

Definition is_number (s : string) : bool :=
  match float_of_str s with Some _ => true | None => false end.

(** The cells of one column: numbers when every cell that is not empty is
    a number, texts otherwise; an empty cell is missing either way. *)
Definition parse_column (raw : list string) : list Cell :=
  if forallb (fun s => is_empty s || is_number s) raw
  then map (fun s => match float_of_str s with
                     | Some x => Num x
                     | None => Num F64.nan
                     end) raw
  else map (fun s => if is_empty s then Num F64.nan else Text s) raw.

Fixpoint has_duplicates (names : list string) : bool :=
  match names with
  | [] => false
  | n :: rest => existsb (String.eqb n) rest || has_duplicates rest
  end.

(** Duplicate names are refused and blank lines are skipped. *)
Definition pd_read_csv (lines names : list string) : Result DataFrame :=
  if has_duplicates names then inl ValueError
  else
    let rows := map split_comma
                    (filter (fun l => negb (is_empty l)) (skipn 5 lines)) in
    ret (mkDataFrame
           (length rows)
           (map (fun kn =>
                   (snd kn,
                    parse_column (map (fun r => nth (fst kn) r "") rows)))
                (combine (seq 0 (length names)) names))).

End Plain.

(** ** Decoding the file

    [read_vicon_csv] opens the path twice: once itself, with
    [encoding="utf-8", errors="replace"], to read the header, and once
    through [pd.read_csv], which is given no [encoding_errors] and so
    decodes UTF-8 with its default [encoding_errors="strict"].  Bytes and
    code points are numbers. *)

Module Decoding.

Inductive Errors : Type := Strict | Replace.

Definition in_range (lo hi n : N) : bool := ((lo <=? n) && (n <=? hi))%N.

(** A continuation byte, 0x80..0xBF. *)
Definition is_cont (b : N) : bool := in_range 128 191 b.

(** U+FFFD, the replacement character. *)
Definition REPLACEMENT : N := 65533.

(** What an ill-formed sequence becomes, [rest] being the decoding of
    what follows it. *)
Definition ill_formed (errors : Errors) (rest : Result (list N))
  : Result (list N) :=
  match errors with
  | Strict => inl UnicodeDecodeError
  | Replace => t <- rest ;; ret (REPLACEMENT :: t)
  end.

Definition scalar (cp : N) (rest : Result (list N)) : Result (list N) :=
  t <- rest ;; ret (cp :: t).

(** The UTF-8 decoder: an ill-formed sequence ends at the first byte that
    cannot continue it, or at the end of the data. *)
Fixpoint decode (errors : Errors) (bs : list N) : Result (list N) :=
  match bs with
  | [] => ret []
  | b0 :: r0 =>
      if (b0 <? 128)%N then scalar b0 (decode errors r0)
      else if in_range 194 223 b0 then
        match r0 with
        | b1 :: r1 =>
            if is_cont b1
            then scalar ((b0 - 192) * 64 + (b1 - 128))%N (decode errors r1)
            else ill_formed errors (decode errors r0)
        | [] => ill_formed errors (ret [])
        end
      else if in_range 224 239 b0 then
        let lo := if (b0 =? 224)%N then 160%N else 128%N in
        let hi := if (b0 =? 237)%N then 159%N else 191%N in
        match r0 with
        | b1 :: r1 =>
            if in_range lo hi b1 then
              match r1 with
              | b2 :: r2 =>
                  if is_cont b2
                  then scalar ((b0 - 224) * 4096 + (b1 - 128) * 64
                               + (b2 - 128))%N
                              (decode errors r2)
                  else ill_formed errors (decode errors r1)
              | [] => ill_formed errors (ret [])
              end
            else ill_formed errors (decode errors r0)
        | [] => ill_formed errors (ret [])
        end
      else if in_range 240 244 b0 then
        let lo := if (b0 =? 240)%N then 144%N else 128%N in
        let hi := if (b0 =? 244)%N then 143%N else 191%N in
        match r0 with
        | b1 :: r1 =>
            if in_range lo hi b1 then
              match r1 with
              | b2 :: r2 =>
                  if is_cont b2 then
                    match r2 with
                    | b3 :: r3 =>
                        if is_cont b3
                        then scalar ((b0 - 240) * 262144 + (b1 - 128) * 4096
                                     + (b2 - 128) * 64 + (b3 - 128))%N
                                    (decode errors r3)
                        else ill_formed errors (decode errors r2)
                    | [] => ill_formed errors (ret [])
                    end
                  else ill_formed errors (decode errors r1)
              | [] => ill_formed errors (ret [])
              end
            else ill_formed errors (decode errors r0)
        | [] => ill_formed errors (ret [])
        end
      else ill_formed errors (decode errors r0)
  end.

(** The text the header is read from. *)
Definition open_header (file : list N) : Result (list N) :=
  decode Replace file.

(** The text [pd.read_csv] parses. *)
Definition open_data (file : list N) : Result (list N) :=
  decode Strict file.

(** The bytes of a text of code points below 128. *)
Definition ascii_bytes (s : string) : list N :=
  map N_of_ascii (list_ascii_of_string s).

Definition LF : N := 10.

End Decoding.

(** ** The motion quantity calculator: [motion_quantity_point] *)

Module Motion.
Import Table.

(** [np.diff(arr, axis=0)]: each row minus the one before it. *)
Definition row_sub (q p : list F64.t) : list F64.t :=
  map (fun qp => F64.sub (fst qp) (snd qp)) (combine q p).

Definition diff (arr : list (list F64.t)) : list (list F64.t) :=
  map (fun qp => row_sub (fst qp) (snd qp)) (combine (tl arr) arr).

(** [np.sqrt((d ** 2).sum(axis=1))] for one row of [d]: the squares are
    added in index order, which is how numpy adds up the rows of a table of
    fewer than eight columns; the zero it starts from changes no sum of
    squares. *)
Definition row_norm (d : list F64.t) : F64.t :=
  F64.sqrt (fold_left F64.add (map (fun x => F64.mul x x) d) F64.zero).

(** The pairs [(p, q)] of temporally consecutive rows. *)
Definition consecutive (arr : list (list F64.t))
  : list (list F64.t * list F64.t) :=
  combine arr (tl arr).

(** The Euclidean distance between two points. *)
Definition distance (p q : list F64.t) : F64.t := row_norm (row_sub q p).

(** The distances of the steps that are kept. *)
Definition finite_steps (arr : list (list F64.t)) : list F64.t :=
  filter F64.isfinite
         (map (fun pq => distance (fst pq) (snd pq)) (consecutive arr)).

(** Summation in index order, starting from zero: one way of adding an
    array up.  [ndarray.sum()] adds pairwise and can round differently on
    longer arrays; the examples use arrays too short for that. *)
Definition sum_in_order (l : list F64.t) : F64.t :=
  fold_left F64.add l F64.zero.

Section Calculator.

(** [ndarray.sum()] of a one-dimensional float64 array. *)
Variable np_sum : list F64.t -> F64.t.

(** [float(s)] of a text; [None] when it raises [ValueError]. *)
Variable float_of_str : string -> option F64.t.

(** The float64 of a cell. *)
Definition to_float (c : Cell) : Result F64.t :=
  match c with
  | Num x => ret x
  | Text s =>
      match float_of_str s with
      | Some x => ret x
      | None => inl ValueError
      end
  end.

(** [.to_numpy(dtype=float)]: one row per index, one entry per column; a
    text that is no number raises [ValueError]. *)
Definition to_numpy (n : nat) (cs : list Column) : Result (list (list F64.t)) :=
  collect
    (map (fun i =>
            collect (map (fun c => to_float (nth i (snd c) (Num F64.nan))) cs))
         (seq 0 n)).

Definition motion_quantity_point (df : DataFrame) (X Y Z : string)
  : Result (F64.t * nat) :=
  cs <- select df [X; Y; Z] ;;
  arr <- to_numpy (nrows df) cs ;;
  let d := diff arr in
  let step := map row_norm d in
  let step := filter F64.isfinite step in
  ret (np_sum step, length step).

End Calculator.

(** The columns carrying one of the three labels hold numbers only. *)
Definition numeric_columns (df : DataFrame) (X Y Z : string) : Prop :=
  forall c, In c (cols df) -> In (fst c) [X; Y; Z] ->
            forallb is_num (snd c) = true.

(** The label [l] names exactly one column of the table, and that column
    holds the numbers [xs]. *)
Definition names_numbers (df : DataFrame) (l : string) (xs : list F64.t)
  : Prop :=
  columns_named df l = [(l, map Num xs)].

(** *** The quantity of motion in the words of its definition *)

(** A point of the trajectory. *)
Definition Point : Type := (F64.t * F64.t * F64.t)%type.

(** The Euclidean distance between two points. *)
Definition euclid (p q : Point) : F64.t :=
  let '(px, py, pz) := p in
  let '(qx, qy, qz) := q in
  let dx := F64.sub qx px in
  let dy := F64.sub qy py in
  let dz := F64.sub qz pz in
  F64.sqrt (F64.add (F64.add (F64.mul dx dx) (F64.mul dy dy)) (F64.mul dz dz)).

(** The point of row [i]; [xs], [ys], [zs] are the values of the three
    columns. *)
Definition point (xs ys zs : list F64.t) (i : nat) : Point :=
  (nth i xs F64.nan, nth i ys F64.nan, nth i zs F64.nan).

(** The length of the step from row [i] to row [i + 1]. *)
Definition step_length (xs ys zs : list F64.t) (i : nat) : F64.t :=
  euclid (point xs ys zs i) (point xs ys zs (S i)).

(** The steps of a table of [n] rows whose length is finite. *)
Definition valid_steps (n : nat) (xs ys zs : list F64.t) : list nat :=
  filter (fun i => F64.isfinite (step_length xs ys zs i)) (seq 0 (n - 1)).

Definition valid_lengths (n : nat) (xs ys zs : list F64.t) : list F64.t :=
  map (step_length xs ys zs) (valid_steps n xs ys zs).

Definition finite_point (p : Point) : Prop :=
  let '(x, y, z) := p in
  F64.isfinite x = true /\ F64.isfinite y = true /\ F64.isfinite z = true.

(** A way of adding numbers up: zeros, the numbers, and additions of two
    partial sums. *)
Inductive Summation : Type :=
| SZero (negative : bool)
| STerm (x : F64.t)
| SAdd (l r : Summation).

Fixpoint terms (t : Summation) : list F64.t :=
  match t with
  | SZero _ => []
  | STerm x => [x]
  | SAdd l r => (terms l ++ terms r)%list
  end.

Fixpoint value (t : Summation) : F64.t :=
  match t with
  | SZero s => S754_zero s
  | STerm x => x
  | SAdd l r => F64.add (value l) (value r)
  end.

(** [q] is a sum of the numbers of [l]: each of them is added exactly
    once, in some order and association. *)
Definition is_sum (l : list F64.t) (q : F64.t) : Prop :=
  exists t, Permutation (terms t) l /\ value t = q.

(** The function returns a sum of the array it is given. *)
Definition sums (f : list F64.t -> F64.t) : Prop :=
  forall l, is_sum l (f l).

End Motion.

(** ** Notions used to state the resolver's properties *)

Module ResolverSpec.
Import PyStr Resolver.

(** The component of the returned triple for one axis. *)
Definition component (ax : Axis)
           (r : option string * option string * option string)
  : option string :=
  match ax with
  | AX => fst (fst r)
  | AY => snd (fst r)
  | AZ => snd r
  end.

(** An optional label is absent or one of [columns]. *)
Definition absent_or_in (columns : list string) (o : option string) : Prop :=
  match o with
  | None => True
  | Some c => In c columns
  end.

(** Two strings of the same length whose characters match under
    [re.IGNORECASE]. *)
Fixpoint eq_ci_str (a b : string) : bool :=
  match a, b with
  | EmptyString, EmptyString => true
  | String x a', String y b' => eq_ci x y && eq_ci_str a' b'
  | _, _ => false
  end.

(** The part of a match that follows the anchor and the whitespace: the
    token (up to case), ["_"], the axis letter and a word boundary. *)
Definition tail_shape (token : string) (ax : Axis) (s : string) : Prop :=
  exists tok a rest,
    s = tok ++ "_" ++ String a rest
    /\ eq_ci_str token tok = true
    /\ axis_of_char a = Some ax
    /\ at_boundary rest = true.

(** The stripped label [s] holds, at its start or after a [":"], optional
    whitespace, then the token (up to case), ["_"], the letter of axis
    [ax] (up to case) and a word boundary. *)
Definition anchored_occurrence (token : string) (ax : Axis) (s : string)
  : Prop :=
  exists pre ws tok a rest,
    s = pre ++ ws ++ tok ++ "_" ++ String a rest /\
    (pre = "" \/ exists pre', pre = pre' ++ ":") /\
    all_chars isspace ws = true /\
    eq_ci_str token tok = true /\
    axis_of_char a = Some ax /\
    at_boundary rest = true.

(** No attempt of the pattern succeeds at a position inside the prefix
    [p], which is followed by [suffix]. *)
Fixpoint earlier_clear (token : string) (at_start : bool) (p suffix : string)
  : bool :=
  match p with
  | EmptyString =>
      if at_start then
        match match_ws_tail token suffix with None => true | Some _ => false end
      else true
  | String _ p' =>
      match match_at token at_start (p ++ suffix) with
      | None => earlier_clear token false p' suffix
      | Some _ => false
      end
  end.

Definition prefix_clear (token P : string) : bool :=
  earlier_clear token true (remove_spaces P) (":" ++ token ++ "_X").

(** The column [c] is matched for axis [ax]. *)
Definition matches_axis (token : string) (ax : Axis) (c : string) : bool :=
  match col_axis token c, ax with
  | Some AX, AX | Some AY, AY | Some AZ, AZ => true
  | _, _ => false
  end.

Definition no_space (s : string) : bool :=
  all_chars (fun c => negb (c =? " ")%char) s.

(** *** The matching rule as a reader of the prose would check it *)

Definition axis_letter (ax : Axis) : string :=
  match ax with AX => "X" | AY => "Y" | AZ => "Z" end.

(** Remove every whitespace character. *)
Fixpoint remove_whitespace (s : string) : string :=
  match s with
  | EmptyString => EmptyString
  | String c s' =>
      if isspace c then remove_whitespace s' else String c (remove_whitespace s')
  end.

(** [pat] is a prefix of [s], characters compared with [eqc]; returns what
    follows. *)
Fixpoint prefix_rest (eqc : ascii -> ascii -> bool) (pat s : string)
  : option string :=
  match pat with
  | EmptyString => Some s
  | String p pat' =>
      match s with
      | String c s' => if eqc p c then prefix_rest eqc pat' s' else None
      | EmptyString => None
      end
  end.

(** [pat] occurs in [s] at a position that is the start ([anchored]) or
    comes right after a [":"], and is followed by a word boundary. *)
Fixpoint occurs_anchored (eqc : ascii -> ascii -> bool) (pat : string)
         (anchored : bool) (s : string) : bool :=
  (anchored &&
     match prefix_rest eqc pat s with
     | Some rest => at_boundary rest
     | None => false
     end)
  || match s with
     | String c s' => occurs_anchored eqc pat (c =? ":")%char s'
     | EmptyString => false
     end.

(** The rule with a choice of what "removing whitespace" removes and of
    how characters are compared. *)
Definition prose_rule (clean : string -> string)
           (eqc : ascii -> ascii -> bool)
           (token : string) (ax : Axis) (label : string) : bool :=
  occurs_anchored eqc (token ++ "_" ++ axis_letter ax) true (clean label).

End ResolverSpec.

Import PyStr Resolver ResolverSpec.

Definition TAB : ascii := ascii_of_N 9.

(** * Properties *)

(** ** Strings *)

Lemma str_length_app (a b : string) :
  String.length (a ++ b) = String.length a + String.length b.
Proof. induction a as [|c a IH]; simpl; [reflexivity | now rewrite IH]. Qed.

Lemma app_assoc_str (a b c : string) : (a ++ b) ++ c = a ++ b ++ c.
Proof. induction a as [|x a IH]; simpl; [reflexivity | now rewrite IH]. Qed.

Lemma app_empty_r (a : string) : a ++ "" = a.
Proof. induction a as [|x a IH]; simpl; [reflexivity | now rewrite IH]. Qed.

Lemma remove_spaces_app (a b : string) :
  remove_spaces (a ++ b) = remove_spaces a ++ remove_spaces b.
Proof.
  induction a as [|c a IH]; simpl; [reflexivity|].
  destruct (c =? " ")%char; simpl; now rewrite IH.
Qed.

Lemma remove_spaces_id (s : string) :
  no_space s = true -> remove_spaces s = s.
Proof.
  unfold no_space. induction s as [|c s IH]; simpl; [reflexivity|].
  intros H. apply andb_prop in H as [Hc Hs].
  destruct (c =? " ")%char; [discriminate|]. now rewrite IH.
Qed.

Lemma eq_ci_refl (c : ascii) : eq_ci c c = true.
Proof. unfold eq_ci. apply Ascii.eqb_refl. Qed.

(** ** The dictionary [found] *)

Lemma found_get_set_same ax c f : found_get ax (found_set ax c f) = Some c.
Proof. destruct ax; reflexivity. Qed.

Lemma found_get_set_other ax ax' c f :
  ax <> ax' -> found_get ax (found_set ax' c f) = found_get ax f.
Proof. destruct ax, ax'; intros H; try reflexivity; now elim H. Qed.

Lemma Axis_eq_dec (a b : Axis) : {a = b} + {a <> b}.
Proof. decide equality. Qed.

Lemma component_find ax columns token :
  component ax (find_xyz_cols columns token)
  = found_get ax (find_found columns token).
Proof. destruct ax; reflexivity. Qed.

(** What one iteration does to the entry of one axis: it leaves it, or
    stores the column [c], which then matches that axis and either is the
    first stored or has a stripped form strictly shorter than the stored
    label. *)
Lemma step_cases token f c ax :
  found_get ax (step token f c) = found_get ax f
  \/ (found_get ax (step token f c) = Some c
      /\ col_axis token c = Some ax
      /\ (found_get ax f = None
          \/ exists old, found_get ax f = Some old
                         /\ String.length (remove_spaces c) < String.length old)).
Proof.
  unfold step, col_axis.
  destruct (pat_search token (remove_spaces c)) as [axis|] eqn:Hs; [|now left].
  destruct (Axis_eq_dec ax axis) as [->|Hne].
  - destruct (found_get axis f) as [old|] eqn:Hg.
    + destruct (String.length (remove_spaces c) <? String.length old)%nat eqn:Hlt.
      * right. rewrite found_get_set_same. repeat split.
        right. exists old. split; [reflexivity|]. now apply Nat.ltb_lt.
      * left. now rewrite Hg.
    + right. rewrite found_get_set_same. repeat split. now left.
  - left.
    destruct (found_get axis f) as [old|];
      [destruct (String.length (remove_spaces c) <? String.length old)%nat|];
      try reflexivity; now apply found_get_set_other.
Qed.

Lemma fold_step_app token f l1 l2 :
  fold_left (step token) (l1 ++ l2)%list f
  = fold_left (step token) l2 (fold_left (step token) l1 f).
Proof. apply fold_left_app. Qed.

(** Every stored label is a column seen so far. *)
Lemma fold_step_in token columns : forall f ax c,
  found_get ax (fold_left (step token) columns f) = Some c ->
  found_get ax f = Some c \/ In c columns.
Proof.
  induction columns as [|col columns IH]; simpl; intros f ax c H; [now left|].
  apply IH in H as [H|H]; [|now right; right].
  destruct (step_cases token f col ax) as [E|[E _]]; rewrite E in H.
  - now left.
  - right; left. congruence.
Qed.

(** C10. Every component of the triple returned by [find_xyz_cols] that is
    not [None] is one of the input column labels, as supplied. *)
Theorem find_xyz_cols_verbatim (columns : list string) (token : string) :
  absent_or_in columns (component AX (find_xyz_cols columns token))
  /\ absent_or_in columns (component AY (find_xyz_cols columns token))
  /\ absent_or_in columns (component AZ (find_xyz_cols columns token)).
Proof.
  assert (H : forall ax,
             absent_or_in columns (component ax (find_xyz_cols columns token))).
  { intros ax. rewrite component_find. unfold absent_or_in, find_found.
    destruct (found_get ax (fold_left (step token) columns found_empty))
      as [c|] eqn:E; [|exact I].
    apply fold_step_in in E as [E|E]; [|exact E].
    destruct ax; discriminate. }
  repeat split; apply H.
Qed.

(** Columns that do not match an axis leave its entry alone. *)
Lemma fold_step_no_match token ax columns : forall f,
  (forall c, In c columns -> col_axis token c <> Some ax) ->
  found_get ax (fold_left (step token) columns f) = found_get ax f.
Proof.
  induction columns as [|col columns IH]; simpl; intros f H; [reflexivity|].
  rewrite IH by (intros c Hc; apply H; now right).
  destruct (step_cases token f col ax) as [E|[_ [E _]]]; [exact E|].
  exfalso. apply (H col); [now left | exact E].
Qed.

(** A stored label stays while no later matching column has a stripped
    form strictly shorter than it. *)
Lemma fold_step_keep token ax c columns : forall f,
  found_get ax f = Some c ->
  (forall c', In c' columns -> col_axis token c' = Some ax ->
              String.length c <= String.length (remove_spaces c')) ->
  found_get ax (fold_left (step token) columns f) = Some c.
Proof.
  induction columns as [|col columns IH]; simpl; intros f Hf H; [exact Hf|].
  apply IH; [|intros c' Hc'; apply H; now right].
  destruct (step_cases token f col ax) as [E|[_ [Hm [Hn|[old [Ho Hlt]]]]]].
  - now rewrite E.
  - congruence.
  - rewrite Hf in Ho. injection Ho as <-.
    specialize (H col (or_introl eq_refl) Hm). lia.
Qed.

(** The first column matching an axis is stored. *)
Lemma step_first token f c ax :
  found_get ax f = None ->
  col_axis token c = Some ax ->
  found_get ax (step token f c) = Some c.
Proof.
  unfold col_axis, step. intros Hf Hc. rewrite Hc, Hf.
  apply found_get_set_same.
Qed.

(** C9. The resolver compares the length of a candidate's space-stripped
    form with the length of the stored label.  The first column matching an
    axis is stored, and it is the one returned when no later column matching
    that axis is strictly shorter under this comparison (in particular when
    they compare equal); in any iteration a stored label is replaced only by
    a column that is strictly shorter under this comparison. *)
Theorem first_match_kept (token : string) (pre : list string) (c : string)
        (post : list string) (ax : Axis) :
  (forall c', In c' pre -> col_axis token c' <> Some ax) ->
  col_axis token c = Some ax ->
  (forall c', In c' post -> col_axis token c' = Some ax ->
              String.length c <= String.length (remove_spaces c')) ->
  component ax (find_xyz_cols (pre ++ c :: post)%list token) = Some c
  /\ (forall found col c0 c1,
         found_get ax found = Some c0 ->
         found_get ax (step token found col) = Some c1 ->
         c1 = c0
         \/ (c1 = col
             /\ String.length (remove_spaces col) < String.length c0)).
Proof.
  intros Hpre Hc Hpost. split.
  - rewrite component_find. unfold find_found.
    rewrite fold_step_app. simpl.
    apply fold_step_keep; [|exact Hpost].
    apply step_first; [|exact Hc].
    rewrite fold_step_no_match by exact Hpre. now destruct ax.
  - intros found col c0 c1 H0 H1.
    destruct (step_cases token found col ax) as [E|[E [_ [Hn|[old [Ho Hlt]]]]]].
    + left. congruence.
    + congruence.
    + right. rewrite H0 in Ho. injection Ho as <-. split; [congruence|exact Hlt].
Qed.

Lemma first_match_kept_witness :
  component AX (find_xyz_cols (["Frame"] ++ "P1:w_X" :: ["P2:w_X"])%list "w")
  = Some "P1:w_X".
Proof.
  apply (first_match_kept "w" ["Frame"] "P1:w_X" ["P2:w_X"] AX).
  - intros c' [<-|[]]. vm_compute. discriminate.
  - vm_compute. reflexivity.
  - intros c' [<-|[]] _. vm_compute. lia.
Defined.

(** C4, evaluated on two columns that both match token [poignet_D] for axis
    X: the returned column is the second one, whose space-stripped label is
    strictly longer than that of the first. *)
Theorem shortest_stripped_not_kept :
  let c1 := "Le Patient 1:poignet_D_X" in
  let c2 := "LePatient12:poignet_D_X" in
  col_axis "poignet_D" c1 = Some AX
  /\ col_axis "poignet_D" c2 = Some AX
  /\ String.length (remove_spaces c1) < String.length (remove_spaces c2)
  /\ find_xyz_cols [c1; c2] "poignet_D" = (Some c2, None, None).
Proof. vm_compute. repeat split. lia. Qed.

(** ** The pattern *)

Lemma match_literal_length tok : forall s r,
  match_literal tok s = Some r ->
  String.length s = String.length tok + String.length r.
Proof.
  induction tok as [|t tok IH]; simpl; intros s r H.
  - now injection H as <-.
  - destruct s as [|c s]; [discriminate|].
    destruct (eq_ci t c); [|discriminate].
    simpl. now rewrite (IH _ _ H).
Qed.

Lemma match_tail_short token s :
  String.length s < String.length token + 2 -> match_tail token s = None.
Proof.
  intros Hlen. unfold match_tail.
  destruct (match_literal token s) as [r|] eqn:E; [|reflexivity].
  apply match_literal_length in E.
  destruct r as [|u [|a rest]]; try reflexivity.
  simpl in E. lia.
Qed.

Lemma match_ws_tail_short token : forall s,
  String.length s < String.length token + 2 -> match_ws_tail token s = None.
Proof.
  induction s as [|c s IH]; intros Hlen.
  - simpl. now apply match_tail_short.
  - cbn [match_ws_tail].
    rewrite IH by (simpl in Hlen; lia).
    rewrite match_tail_short by exact Hlen.
    now destruct (isspace c).
Qed.

Lemma match_literal_self tok r : match_literal tok (tok ++ r) = Some r.
Proof.
  induction tok as [|t tok IH]; simpl; [reflexivity|].
  now rewrite eq_ci_refl.
Qed.

Lemma match_tail_self token : match_tail token (token ++ "_X") = Some AX.
Proof. unfold match_tail. now rewrite match_literal_self. Qed.

(** After the separator the greedy [\s*] can only settle on no character
    at all: any other choice leaves too few characters for the token. *)
Lemma match_ws_tail_self token : match_ws_tail token (token ++ "_X") = Some AX.
Proof.
  destruct token as [|t token].
  - reflexivity.
  - change (String t token ++ "_X") with (String t (token ++ "_X")).
    cbn [match_ws_tail].
    rewrite match_ws_tail_short by (rewrite str_length_app; simpl; lia).
    change (String t (token ++ "_X")) with (String t token ++ "_X").
    rewrite match_tail_self. now destruct (isspace t).
Qed.

Lemma search_clear token : forall p at_start,
  earlier_clear token at_start p (":" ++ token ++ "_X") = true ->
  search_from token at_start (p ++ ":" ++ token ++ "_X") = Some AX.
Proof.
  induction p as [|ch p IH]; intros at_start H.
  - cbn [earlier_clear] in H.
    change ("" ++ ":" ++ token ++ "_X") with (String ":" (token ++ "_X")).
    change (":" ++ token ++ "_X") with (String ":" (token ++ "_X")) in H.
    assert (Hm : match_at token at_start (String ":" (token ++ "_X")) = Some AX).
    { unfold match_at. destruct at_start.
      - destruct (match_ws_tail token (String ":" (token ++ "_X")));
          [discriminate|].
        change (":" =? ":")%char with true. apply match_ws_tail_self.
      - change (":" =? ":")%char with true. apply match_ws_tail_self. }
    cbn [search_from]. now rewrite Hm.
  - cbn [earlier_clear] in H.
    change (String ch p ++ ":" ++ token ++ "_X")
      with (String ch (p ++ ":" ++ token ++ "_X")) in *.
    cbn [search_from].
    destruct (match_at token at_start (String ch (p ++ ":" ++ token ++ "_X")));
      [discriminate|].
    now apply IH.
Qed.

(** Once an axis has an entry it keeps one. *)
Lemma fold_step_some token ax columns : forall f,
  found_get ax f <> None ->
  found_get ax (fold_left (step token) columns f) <> None.
Proof.
  induction columns as [|col columns IH]; simpl; intros f H; [exact H|].
  apply IH.
  destruct (step_cases token f col ax) as [E|[E _]]; rewrite E;
    [exact H | discriminate].
Qed.

Lemma find_found_some token ax c columns :
  In c columns -> col_axis token c = Some ax ->
  found_get ax (find_found columns token) <> None.
Proof.
  unfold find_found. generalize found_empty.
  induction columns as [|col columns IH]; simpl; intros f Hin Hc; [easy|].
  destruct Hin as [->|Hin]; [|now apply IH].
  apply fold_step_some.
  destruct (found_get ax f) eqn:Hf.
  - destruct (step_cases token f c ax) as [E|[E _]]; rewrite E;
      [rewrite Hf|]; discriminate.
  - rewrite (step_first _ _ _ _ Hf Hc). discriminate.
Qed.

(** C3, as stated, fails: the prefix [t_Y] already matches the pattern for
    token [t], so the column is taken for axis Y and X stays absent. *)
Lemma prefix_tolerance_counterexample :
  In ("t_Y" ++ ":" ++ "t" ++ "_X") ["t_Y:t_X"]
  /\ component AX (find_xyz_cols ["t_Y:t_X"] "t") = None.
Proof. split; [now left | reflexivity]. Qed.

(** C3, amended.  When the token holds no space character and the pattern
    does not already match at a position inside the prefix [P], a column
    [P:T_X] among the labels gives a non-absent X component. *)
Theorem prefix_tolerance (P T : string) (columns : list string) :
  no_space T = true ->
  prefix_clear T P = true ->
  In (P ++ ":" ++ T ++ "_X") columns ->
  component AX (find_xyz_cols columns T) <> None.
Proof.
  intros HT HP Hin. rewrite component_find.
  apply (find_found_some T AX _ columns Hin).
  unfold col_axis, pat_search.
  rewrite !remove_spaces_app, (remove_spaces_id T HT).
  change (remove_spaces ":") with ":". change (remove_spaces "_X") with "_X".
  now apply search_clear.
Qed.

Lemma prefix_tolerance_witness :
  component AX (find_xyz_cols ["Frame"; "P1:wrist_L_X"] "wrist_L") <> None.
Proof.
  apply (prefix_tolerance "P1" "wrist_L" ["Frame"; "P1:wrist_L_X"]).
  - vm_compute. reflexivity.
  - vm_compute. reflexivity.
  - simpl. right. left. reflexivity.
Defined.

(** *** What a match says about the stripped label *)

Lemma match_literal_spec tok : forall s r,
  match_literal tok s = Some r ->
  exists tok', s = tok' ++ r /\ eq_ci_str tok tok' = true.
Proof.
  induction tok as [|t tok IH]; simpl; intros s r H.
  - injection H as <-. now exists "".
  - destruct s as [|c s]; [discriminate|].
    destruct (eq_ci t c) eqn:Hc; [|discriminate].
    destruct (IH _ _ H) as (tok' & -> & Heq).
    exists (String c tok'). simpl. now rewrite Hc, Heq.
Qed.

Lemma match_tail_spec token s ax :
  match_tail token s = Some ax -> tail_shape token ax s.
Proof.
  unfold match_tail. intros H.
  destruct (match_literal token s) as [r|] eqn:E; [|discriminate].
  destruct r as [|u [|a rest]]; try discriminate.
  destruct (u =? "_")%char eqn:Hu; [|discriminate].
  apply Ascii.eqb_eq in Hu as ->.
  destruct (axis_of_char a) as [ax'|] eqn:Ha; [|discriminate].
  destruct (at_boundary rest) eqn:Hb; [|discriminate].
  injection H as ->.
  destruct (match_literal_spec _ _ _ E) as (tok & -> & Heq).
  now exists tok, a, rest.
Qed.

Lemma match_ws_tail_spec token : forall s ax,
  match_ws_tail token s = Some ax ->
  exists ws t, s = ws ++ t /\ all_chars isspace ws = true
               /\ tail_shape token ax t.
Proof.
  induction s as [|c s IH]; intros ax H.
  - exists "", "". repeat split. now apply match_tail_spec.
  - cbn [match_ws_tail] in H.
    assert (Hhere : match_tail token (String c s) = Some ax ->
                    exists ws t, String c s = ws ++ t
                                 /\ all_chars isspace ws = true
                                 /\ tail_shape token ax t).
    { intros Ht. exists "", (String c s). repeat split.
      now apply match_tail_spec. }
    destruct (isspace c) eqn:Hc; [|now apply Hhere].
    destruct (match_ws_tail token s) as [ax'|] eqn:E; [|now apply Hhere].
    injection H as ->.
    destruct (IH _ eq_refl) as (ws & t & -> & Hws & Ht).
    exists (String c ws), t. repeat split; [|exact Ht].
    simpl. now rewrite Hc, Hws.
Qed.

Lemma match_at_spec token at_start s ax :
  match_at token at_start s = Some ax ->
  exists pre ws t, s = pre ++ ws ++ t
                   /\ ((at_start = true /\ pre = "") \/ pre = ":")
                   /\ all_chars isspace ws = true
                   /\ tail_shape token ax t.
Proof.
  unfold match_at. intros H.
  destruct (if at_start then match_ws_tail token s else None) as [ax'|] eqn:E.
  - injection H as ->. destruct at_start; [|discriminate].
    destruct (match_ws_tail_spec _ _ _ E) as (ws & t & -> & Hws & Ht).
    exists "", ws, t. repeat split; auto.
  - destruct s as [|c s]; [discriminate|].
    destruct (c =? ":")%char eqn:Hc; [|discriminate].
    apply Ascii.eqb_eq in Hc as ->.
    destruct (match_ws_tail_spec _ _ _ H) as (ws & t & -> & Hws & Ht).
    exists ":", ws, t. repeat split; auto.
Qed.

Lemma search_from_spec token : forall s at_start ax,
  search_from token at_start s = Some ax ->
  exists pre ws t, s = pre ++ ws ++ t
                   /\ ((at_start = true /\ pre = "")
                       \/ exists pre', pre = pre' ++ ":")
                   /\ all_chars isspace ws = true
                   /\ tail_shape token ax t.
Proof.
  induction s as [|c s IH]; intros at_start ax H; cbn [search_from] in H.
  - destruct (match_at token at_start "") as [ax'|] eqn:E; [|discriminate].
    injection H as ->.
    destruct (match_at_spec _ _ _ _ E) as (pre & ws & t & Hs & Hp & Hws & Ht).
    exists pre, ws, t. repeat split; auto.
    destruct Hp as [Hp| ->]; [now left | right; now exists ""].
  - destruct (match_at token at_start (String c s)) as [ax'|] eqn:E.
    + injection H as ->.
      destruct (match_at_spec _ _ _ _ E) as (pre & ws & t & Hs & Hp & Hws & Ht).
      exists pre, ws, t. repeat split; auto.
      destruct Hp as [Hp| ->]; [now left | right; now exists ""].
    + destruct (IH _ _ H) as (pre & ws & t & -> & Hp & Hws & Ht).
      exists (String c pre), ws, t. repeat split; auto.
      right. destruct Hp as [[Hf _]|[pre' ->]]; [discriminate|].
      now exists (String c pre').
Qed.

Lemma col_axis_anchored token c ax :
  col_axis token c = Some ax ->
  anchored_occurrence token ax (remove_spaces c).
Proof.
  unfold col_axis, pat_search. intros H.
  destruct (search_from_spec _ _ _ _ H)
    as (pre & ws & t & Hs & Hp & Hws & (tok & a & rest & -> & Htok & Ha & Hb)).
  exists pre, ws, tok, a, rest. repeat split; auto.
  destruct Hp as [[_ Hp]|Hp]; [now left | now right].
Qed.

(** A stored label is a column that matches the axis it is stored for. *)
Lemma fold_step_matches token columns : forall f ax c,
  found_get ax (fold_left (step token) columns f) = Some c ->
  found_get ax f = Some c \/ (In c columns /\ col_axis token c = Some ax).
Proof.
  induction columns as [|col columns IH]; simpl; intros f ax c H; [now left|].
  apply IH in H as [H|[H1 H2]]; [|right; split; [now right | exact H2]].
  destruct (step_cases token f col ax) as [E|[E [Hm _]]]; rewrite E in H.
  - now left.
  - right. injection H as <-. split; [now left | exact Hm].
Qed.

(** C2, as stated, fails on a label holding tab characters, whichever way
    the prose is read (all whitespace or only spaces removed, characters
    compared exactly or up to case): the resolver matches the label for
    axis X, and the stated condition does not hold of it. *)
Lemma matching_rule_counterexample :
  let label := String TAB "t_X" ++ String TAB "z" in
  component AX (find_xyz_cols [label] "t") = Some label
  /\ prose_rule remove_whitespace Ascii.eqb "t" AX label = false
  /\ prose_rule remove_whitespace eq_ci "t" AX label = false
  /\ prose_rule remove_spaces Ascii.eqb "t" AX label = false
  /\ prose_rule remove_spaces eq_ci "t" AX label = false.
Proof. vm_compute. repeat split. Qed.

(** C2, amended.  A column is returned for axis [ax] only when, after the
    space characters are removed from its label, the label holds at its
    start or after a [":"] separator, optionally behind whitespace other
    than spaces, the token followed by ["_"] and the axis letter, compared
    up to case and followed by a word boundary.  For the columns
    [forearm_X], [forearm_Y], [forearm_Z] and token [arm] the result is
    [(None, None, None)]. *)
Theorem matching_rule :
  (forall (columns : list string) (token : string) (ax : Axis) (c : string),
      component ax (find_xyz_cols columns token) = Some c ->
      In c columns /\ anchored_occurrence token ax (remove_spaces c))
  /\ find_xyz_cols ["forearm_X"; "forearm_Y"; "forearm_Z"] "arm"
     = (None, None, None).
Proof.
  split; [|reflexivity].
  intros columns token ax c H. rewrite component_find in H.
  apply fold_step_matches in H as [H|[Hin Hm]].
  - destruct ax; discriminate.
  - split; [exact Hin | now apply col_axis_anchored].
Qed.

Lemma matching_rule_witness :
  In "P1:wrist_L_X" ["Frame"; "P1:wrist_L_X"]
  /\ anchored_occurrence "wrist_L" AX (remove_spaces "P1:wrist_L_X").
Proof.
  apply (proj1 matching_rule ["Frame"; "P1:wrist_L_X"] "wrist_L" AX).
  vm_compute. reflexivity.
Defined.

Example prose_rule_accepts :
  prose_rule remove_whitespace Ascii.eqb "wrist_L" AX "P 1:wrist_L_X" = true
  /\ prose_rule remove_spaces eq_ci "wrist_L" AX "P 1:wrist_L_X" = true.
Proof. vm_compute. split; reflexivity. Qed.

(** ** The header reconstructor *)

Import Header.

Lemma is_empty_true (s : string) : is_empty s = true <-> s = "".
Proof. destruct s; simpl; split; congruence. Qed.

Lemma fold_fill_step row : forall filled last,
  fst (fold_left fill_step row (filled, last))
  = (filled ++ fill_from last row)%list.
Proof.
  induction row as [|m row IH]; intros filled last; simpl.
  - now rewrite app_nil_r.
  - destruct (is_empty (strip m)); rewrite IH, <- app_assoc; reflexivity.
Qed.

Lemma forward_fill_from row : forward_fill row = fill_from "" row.
Proof. unfold forward_fill. now rewrite fold_fill_step. Qed.

Lemma pad_length row n : n >= length row -> length (pad row n) = n.
Proof. intros H. unfold pad. rewrite List.length_app, repeat_length. lia. Qed.

Lemma pad_nth row n k : nth k (pad row n) "" = nth k row "".
Proof.
  unfold pad. destruct (Nat.lt_ge_cases k (length row)) as [H|H].
  - now rewrite app_nth1.
  - rewrite app_nth2 by exact H. rewrite (nth_overflow row) by exact H.
    apply nth_repeat.
Qed.

(** While the cells are blank the carried value is repeated. *)
Lemma fill_from_blank row : forall last i,
  i < length row ->
  (forall k, k <= i -> cell row k = "") ->
  nth_error (fill_from last row) i = Some last.
Proof.
  unfold cell.
  induction row as [|m row IH]; intros last i Hi Hb; simpl in Hi; [lia|].
  simpl. pose proof (Hb 0 (Nat.le_0_l _)) as H0. simpl in H0.
  rewrite H0. simpl. destruct i as [|i]; [reflexivity|]. simpl.
  apply IH; [lia|]. intros k Hk. apply (Hb (S k)). lia.
Qed.

(** A non-blank cell is carried over the blank cells that follow it. *)
Lemma fill_from_carry row : forall last i j,
  j < i -> i < length row ->
  cell row j <> "" ->
  (forall k, j < k -> k <= i -> cell row k = "") ->
  nth_error (fill_from last row) i = Some (cell row j).
Proof.
  unfold cell.
  induction row as [|m row IH]; intros last i j Hji Hi Hj Hb;
    simpl in Hi; [lia|].
  destruct i as [|i]; [lia|].
  destruct j as [|j].
  - simpl in Hj. simpl.
    destruct (is_empty (strip m)) eqn:E;
      [apply is_empty_true in E; contradiction|].
    simpl. apply fill_from_blank; [lia|].
    intros k Hk. apply (Hb (S k)); lia.
  - simpl.
    assert (Hrec : forall l, nth_error (fill_from l row) i
                             = Some (strip (nth j row ""))).
    { intros l. apply IH; [lia | lia | exact Hj |].
      intros k H1 H2. apply (Hb (S k)); lia. }
    destruct (is_empty (strip m)); simpl; apply Hrec.
Qed.

Lemma nth_error_combine {A B : Type} (l1 : list A) : forall (l2 : list B) i a b,
  nth_error l1 i = Some a -> nth_error l2 i = Some b ->
  nth_error (combine l1 l2) i = Some (a, b).
Proof.
  induction l1 as [|x l1 IH]; intros l2 i a b H1 H2.
  - destruct i; discriminate.
  - destruct l2 as [|y l2]; [destruct i; discriminate|].
    destruct i as [|i]; simpl in *; [congruence | now apply IH].
Qed.

Lemma pad_nth_error row n i :
  n >= length row -> i < n -> nth_error (pad row n) i = Some (nth i row "").
Proof.
  intros Hn Hi. rewrite <- (pad_nth row n i).
  apply nth_error_nth'. now rewrite pad_length.
Qed.

Lemma cell_pad row n k : cell (pad row n) k = cell row k.
Proof. unfold cell. now rewrite pad_nth. Qed.

(** The label built at a position from the marker name in use there. *)
Lemma colnames_at marker_row axis_row i m :
  i < Nat.max (length marker_row) (length axis_row) ->
  nth_error (filled_markers marker_row axis_row) i = Some m ->
  nth_error (colnames marker_row axis_row) i
  = Some (colname m (nth i axis_row "")).
Proof.
  intros Hi Hm. unfold colnames. fold (filled_markers marker_row axis_row).
  rewrite nth_error_map.
  rewrite (nth_error_combine _ _ i m (nth i axis_row "") Hm); [reflexivity|].
  apply pad_nth_error; [lia | exact Hi].
Qed.

(** C1. In the marker-name row, padded to the header width, a blank cell at
    position [i] takes the trimmed cell of the nearest earlier position [j]
    that is not blank, and so does the label built at [i]; when every cell
    up to and including [i] is blank, the marker name at [i] is the empty
    string. *)
Theorem forward_fill_marker_row (marker_row axis_row : list string) (i : nat) :
  i < Nat.max (length marker_row) (length axis_row) ->
  (forall j,
      j < i ->
      cell marker_row j <> "" ->
      (forall k, j < k -> k <= i -> cell marker_row k = "") ->
      nth_error (filled_markers marker_row axis_row) i
      = Some (cell marker_row j)
      /\ nth_error (colnames marker_row axis_row) i
         = Some (colname (cell marker_row j) (nth i axis_row "")))
  /\ ((forall k, k <= i -> cell marker_row k = "") ->
      nth_error (filled_markers marker_row axis_row) i = Some ""
      /\ nth_error (colnames marker_row axis_row) i
         = Some (colname "" (nth i axis_row ""))).
Proof.
  intros Hi.
  set (n := Nat.max (length marker_row) (length axis_row)) in *.
  assert (Hlen : length (pad marker_row n) = n)
    by (apply pad_length; unfold n; lia).
  split.
  - intros j Hj Hne Hb.
    assert (Hf : nth_error (filled_markers marker_row axis_row) i
                 = Some (cell marker_row j)).
    { unfold filled_markers. fold n. rewrite forward_fill_from.
      rewrite <- (cell_pad marker_row n j).
      apply fill_from_carry; [exact Hj | lia | now rewrite cell_pad |].
      intros k H1 H2. rewrite cell_pad. now apply Hb. }
    split; [exact Hf | now apply colnames_at].
  - intros Hb.
    assert (Hf : nth_error (filled_markers marker_row axis_row) i = Some "").
    { unfold filled_markers. fold n. rewrite forward_fill_from.
      apply fill_from_blank; [lia|].
      intros k Hk. rewrite cell_pad. now apply Hb. }
    split; [exact Hf | now apply colnames_at].
Qed.

Lemma forward_fill_marker_row_witness :
  let marker_row := [""; ""; " LSHO "; ""; ""; "RSHO"] in
  let axis_row := ["Frame"; "Sub Frame"; "X"; "Y"; "Z"; "X"; "Y"; "Z"] in
  nth_error (filled_markers marker_row axis_row) 4 = Some "LSHO"
  /\ nth_error (colnames marker_row axis_row) 4 = Some "LSHO_Z".
Proof.
  intros marker_row axis_row.
  assert (Hi : 4 < Nat.max (length marker_row) (length axis_row))
    by (vm_compute; lia).
  apply (proj1 (forward_fill_marker_row marker_row axis_row 4 Hi) 2).
  - lia.
  - vm_compute. discriminate.
  - intros k H1 H2. assert (Hk : k = 3 \/ k = 4) by lia.
    destruct Hk as [-> | ->]; reflexivity.
Defined.

(** ** The table loader *)

Import Table Loader.

Example read_plain_file :
  let lines := ["Trajectories"; "100"; ",,LSHO,,,"; "Frame,Sub Frame,X,Y,Z,";
                "Frame,,mm,mm,mm,"; "1,0,0,0,0,"; "2,0,3,4,,"] in
  option_map labels
    (match read_vicon_csv Plain.csv_next Plain.pd_read_csv lines with
     | inr df => Some df
     | inl _ => None
     end)
  = Some ["Frame"; "Sub Frame"; "LSHO_X"; "LSHO_Y"; "LSHO_Z"].
Proof. vm_compute. reflexivity. Qed.

Section ReaderFacts.

Variable csv_next : list string -> Result (list string * list string).
Variable pd_read_csv : list string -> list string -> Result DataFrame.

(** Every record the reader returns uses up at least one line. *)
Hypothesis csv_next_consumes :
  forall ls rec, csv_next ls = inr rec -> length (snd rec) < length ls.

(** Asking for more records than there are lines ends in an exception
    raised by the reader. *)
Lemma next_n_short : forall n lines,
  length lines < n ->
  exists e ls, csv_next ls = inl e /\ next_n csv_next n lines = inl e.
Proof.
  induction n as [|n IH]; intros lines Hlen; [lia|].
  cbn [next_n]. destruct (csv_next lines) as [e|rec] eqn:E.
  - exists e, lines. split; [exact E | reflexivity].
  - apply csv_next_consumes in E.
    destruct (IH (snd rec)) as (e & ls & He & Hn); [lia|].
    exists e, ls. split; [exact He|]. simpl. now rewrite Hn.
Qed.

End ReaderFacts.

(** C6, as stated, fails: on a file of three lines the header read ends in
    the reader's [StopIteration], not in a [MalformedHeaderError]. *)
Lemma short_file_counterexample :
  let lines := ["Trajectories"; "100"; ",,LSHO,,"] in
  length lines < 5
  /\ read_header Plain.csv_next lines = inl StopIteration
  /\ read_vicon_csv Plain.csv_next Plain.pd_read_csv lines
     <> inl MalformedHeaderError.
Proof.
  intros lines. split; [simpl; lia|].
  split; [reflexivity | vm_compute; discriminate].
Qed.

(** C6, amended.  On a file of fewer than five lines reading the header
    fails with the exception that [next(reader)] raises, and so does
    [read_vicon_csv], which returns no table. *)
Theorem short_file_fails
        (csv_next : list string -> Result (list string * list string))
        (pd_read_csv : list string -> list string -> Result DataFrame)
        (lines : list string) :
  (forall ls rec, csv_next ls = inr rec -> length (snd rec) < length ls) ->
  length lines < 5 ->
  exists e ls,
    csv_next ls = inl e
    /\ read_header csv_next lines = inl e
    /\ read_vicon_csv csv_next pd_read_csv lines = inl e.
Proof.
  intros Hc Hlen.
  destruct (next_n_short csv_next Hc 5 lines Hlen) as (e & ls & He & Hn).
  exists e, ls. unfold read_vicon_csv, read_header. rewrite Hn.
  split; [exact He|]. split; reflexivity.
Qed.

Lemma plain_next_consumes ls rec :
  Plain.csv_next ls = inr rec -> length (snd rec) < length ls.
Proof.
  destruct ls as [|l rest]; [discriminate|].
  intros H. injection H as <-. simpl. lia.
Qed.

Lemma short_file_fails_witness :
  exists e ls,
    Plain.csv_next ls = inl e
    /\ read_header Plain.csv_next ["Trajectories"; "100"] = inl e
    /\ read_vicon_csv Plain.csv_next Plain.pd_read_csv ["Trajectories"; "100"]
       = inl e.
Proof.
  apply (short_file_fails Plain.csv_next Plain.pd_read_csv
                          ["Trajectories"; "100"]).
  - exact plain_next_consumes.
  - simpl. lia.
Defined.

(** ** Dropping the columns that are entirely missing *)

Lemma dropna_all_cols df c :
  In c (cols (dropna_all df))
  <-> In c (cols df) /\ all_missing (snd c) = false.
Proof.
  unfold dropna_all. simpl. rewrite filter_In.
  now rewrite negb_true_iff.
Qed.

(** C7. The table [read_vicon_csv] returns is the loaded table without its
    entirely missing columns: every column kept holds a value that is not
    missing, and a label all of whose loaded columns are entirely missing
    is not among the labels of the returned table. *)
Theorem all_missing_columns_dropped
        (csv_next : list string -> Result (list string * list string))
        (pd_read_csv : list string -> list string -> Result DataFrame)
        (lines : list string) (df : DataFrame) :
  read_vicon_csv csv_next pd_read_csv lines = inr df ->
  exists names loaded,
    read_header csv_next lines = inr names
    /\ pd_read_csv lines names = inr loaded
    /\ df = dropna_all loaded
    /\ (forall c, In c (cols df) -> all_missing (snd c) = false)
    /\ (forall l,
           (forall vs, In (l, vs) (cols loaded) -> all_missing vs = true) ->
           ~ In l (labels df)).
Proof.
  unfold read_vicon_csv. intros H.
  destruct (read_header csv_next lines) as [e|names] eqn:Hh; [discriminate|].
  simpl in H.
  destruct (pd_read_csv lines names) as [e|loaded] eqn:Hl; [discriminate|].
  simpl in H. injection H as <-.
  exists names, loaded.
  split; [reflexivity|]. split; [exact Hl|]. split; [reflexivity|]. split.
  - intros c Hc. now apply dropna_all_cols in Hc.
  - intros l Hmiss Hin. unfold labels in Hin.
    apply in_map_iff in Hin as ([l' vs] & Hfst & Hc). simpl in Hfst. subst l'.
    apply dropna_all_cols in Hc as [Hc Hv]. simpl in Hv.
    rewrite (Hmiss vs Hc) in Hv. discriminate.
Qed.

Lemma all_missing_columns_dropped_witness :
  exists df,
    read_vicon_csv Plain.csv_next Plain.pd_read_csv
      ["Trajectories"; "100"; ",,LSHO,,,"; "Frame,Sub Frame,X,Y,Z,";
       "Frame,,mm,mm,mm,"; "1,0,0,0,0,"; "2,0,3,4,,"] = inr df
    /\ ~ In "LSHO" (labels df).
Proof.
  set (lines := ["Trajectories"; "100"; ",,LSHO,,,"; "Frame,Sub Frame,X,Y,Z,";
                 "Frame,,mm,mm,mm,"; "1,0,0,0,0,"; "2,0,3,4,,"]).
  assert (Hr : exists df,
             read_vicon_csv Plain.csv_next Plain.pd_read_csv lines = inr df)
    by (vm_compute; eexists; reflexivity).
  destruct Hr as [df Hdf]. exists df. split; [exact Hdf|].
  destruct (all_missing_columns_dropped _ _ _ _ Hdf)
    as (names & loaded & Hh & Hl & _ & _ & Hdrop).
  apply Hdrop. intros vs Hin.
  vm_compute in Hh. injection Hh as <-.
  vm_compute in Hl. injection Hl as <-.
  simpl in Hin.
  repeat (destruct Hin as [Hin|Hin];
          [try discriminate Hin; injection Hin as <-; reflexivity|]).
  destruct Hin.
Defined.

(** ** float64 arithmetic on values that are not finite *)

Lemma sub_finite (a b : F64.t) :
  F64.isfinite (F64.sub a b) = true ->
  F64.isfinite a = true /\ F64.isfinite b = true.
Proof.
  destruct a as [sa|sa| |sa ma ea], b as [sb|sb| |sb mb eb];
    try (intros _; split; reflexivity);
    try (destruct sa, sb; simpl; intros H; discriminate H);
    try (destruct sa; simpl; intros H; discriminate H);
    try (destruct sb; simpl; intros H; discriminate H);
    simpl; intros H; discriminate H.
Qed.

Lemma add_finite (a b : F64.t) :
  F64.isfinite (F64.add a b) = true ->
  F64.isfinite a = true /\ F64.isfinite b = true.
Proof.
  destruct a as [sa|sa| |sa ma ea], b as [sb|sb| |sb mb eb];
    try (intros _; split; reflexivity);
    try (destruct sa, sb; simpl; intros H; discriminate H);
    try (destruct sa; simpl; intros H; discriminate H);
    try (destruct sb; simpl; intros H; discriminate H);
    simpl; intros H; discriminate H.
Qed.

Lemma square_finite (a : F64.t) :
  F64.isfinite (F64.mul a a) = true -> F64.isfinite a = true.
Proof.
  destruct a as [sa|sa| |sa ma ea]; try reflexivity;
    simpl; intros H; discriminate H.
Qed.

Lemma sqrt_finite (a : F64.t) :
  F64.isfinite (F64.sqrt a) = true -> F64.isfinite a = true.
Proof.
  destruct a as [sa|sa| |sa ma ea]; try reflexivity;
    try (destruct sa; simpl; intros H; discriminate H);
    simpl; intros H; discriminate H.
Qed.

(** ** The motion quantity calculator *)

Import Motion.

Lemma fold_add_finite (l : list F64.t) : forall acc,
  F64.isfinite (fold_left F64.add l acc) = true ->
  F64.isfinite acc = true /\ Forall (fun x => F64.isfinite x = true) l.
Proof.
  induction l as [|x l IH]; simpl; intros acc H; [now split|].
  apply IH in H as [H Hl]. apply add_finite in H as [Ha Hx].
  split; [exact Ha | now constructor].
Qed.

(** A finite norm comes from finite entries only. *)
Lemma row_norm_finite (d : list F64.t) :
  F64.isfinite (row_norm d) = true ->
  Forall (fun x => F64.isfinite x = true) d.
Proof.
  unfold row_norm. intros H.
  apply sqrt_finite, fold_add_finite in H as [_ H].
  rewrite Forall_map in H.
  eapply Forall_impl; [|exact H]. intros a. apply square_finite.
Qed.

Lemma row_sub_finite (q : list F64.t) : forall p,
  length q = length p ->
  Forall (fun x => F64.isfinite x = true) (row_sub q p) ->
  Forall (fun x => F64.isfinite x = true) p
  /\ Forall (fun x => F64.isfinite x = true) q.
Proof.
  unfold row_sub.
  induction q as [|a q IH]; intros [|b p] Hlen H; try discriminate;
    [now split|].
  simpl in H. inversion H as [|? ? Hab Hrest]; subst.
  apply sub_finite in Hab as [Ha Hb].
  destruct (IH p) as [Hp Hq]; [simpl in Hlen; lia | exact Hrest |].
  split; now constructor.
Qed.

(** A step whose distance is finite has finite endpoints. *)
Lemma distance_finite (p q : list F64.t) :
  length p = length q ->
  F64.isfinite (distance p q) = true ->
  Forall (fun x => F64.isfinite x = true) p
  /\ Forall (fun x => F64.isfinite x = true) q.
Proof.
  intros Hlen H. apply row_norm_finite in H.
  now apply row_sub_finite.
Qed.

Lemma diff_consecutive (arr : list (list F64.t)) :
  diff arr = map (fun pq => row_sub (snd pq) (fst pq)) (consecutive arr).
Proof.
  unfold diff, consecutive. generalize (tl arr) as l2.
  induction arr as [|p arr IH]; intros [|q l2]; simpl; try reflexivity.
  now rewrite IH.
Qed.

Lemma steps_of_diff (arr : list (list F64.t)) :
  filter F64.isfinite (map row_norm (diff arr)) = finite_steps arr.
Proof.
  unfold finite_steps. rewrite diff_consecutive, map_map. reflexivity.
Qed.

Lemma consecutive_length (arr : list (list F64.t)) :
  length (consecutive arr) = length arr - 1.
Proof.
  unfold consecutive. rewrite length_combine.
  destruct arr as [|p arr]; cbn [tl length]; lia.
Qed.

Lemma finite_steps_length (arr : list (list F64.t)) :
  length (finite_steps arr) <= length arr - 1.
Proof.
  unfold finite_steps.
  etransitivity; [apply filter_length_le|].
  now rewrite length_map, consecutive_length.
Qed.

Lemma collect_length {A : Type} (rs : list (Result A)) : forall l,
  collect rs = inr l -> length l = length rs.
Proof.
  induction rs as [|r rs IH]; simpl; intros l H.
  - now injection H as <-.
  - destruct r as [e|a]; [discriminate|]. simpl in H.
    destruct (collect rs) as [e|l'] eqn:E; [discriminate|]. simpl in H.
    injection H as <-. simpl. now rewrite (IH l' eq_refl).
Qed.

Lemma collect_rets {A B : Type} (f : A -> Result B) (g : A -> B) (l : list A) :
  (forall a, f a = ret (g a)) -> collect (map f l) = ret (map g l).
Proof.
  intros H. induction l as [|a l IH]; simpl; [reflexivity|].
  now rewrite H, IH.
Qed.

Lemma to_numpy_length float_of_str n cs arr :
  to_numpy float_of_str n cs = inr arr -> length arr = n.
Proof.
  unfold to_numpy. intros H. apply collect_length in H.
  now rewrite H, length_map, length_seq.
Qed.

Lemma consecutive_in (arr : list (list F64.t)) p q :
  In (p, q) (consecutive arr) -> In p arr /\ In q arr.
Proof.
  unfold consecutive. intros H. split.
  - now apply in_combine_l in H.
  - apply in_combine_r in H. destruct arr; [destruct H | now right].
Qed.

Lemma columns_named_nonempty df l :
  In l (labels df) -> columns_named df l <> [].
Proof.
  unfold labels, columns_named. intros H.
  apply in_map_iff in H as (c & Hc & Hin).
  assert (Hf : In c (filter (fun c => (fst c =? l)%string) (cols df))).
  { apply filter_In. split; [exact Hin|]. now apply String.eqb_eq. }
  intros E. rewrite E in Hf. destruct Hf.
Qed.

Lemma select_present df : forall ls,
  (forall l, In l ls -> In l (labels df)) ->
  exists cs, select df ls = inr cs /\ length ls <= length cs.
Proof.
  induction ls as [|l ls IH]; intros H.
  - exists []. split; [reflexivity | simpl; lia].
  - destruct IH as (rest & Hrest & Hlen); [intros l' Hl'; apply H; now right|].
    pose proof (columns_named_nonempty df l (H l (or_introl eq_refl))) as Hne.
    simpl. destruct (columns_named df l) as [|c cs]; [now elim Hne|].
    rewrite Hrest. simpl. exists (c :: cs ++ rest)%list.
    split; [reflexivity|]. simpl. rewrite List.length_app. lia.
Qed.

Lemma columns_named_unique df l :
  NoDup (labels df) -> In l (labels df) ->
  exists vs, columns_named df l = [(l, vs)].
Proof.
  unfold labels, columns_named.
  induction (cols df) as [|[l' vs'] cs IH]; simpl; intros Hnd Hin; [easy|].
  inversion Hnd as [|? ? Hnot Hnd']; subst.
  destruct (String.eqb_spec l' l) as [->|Hne].
  - exists vs'. f_equal.
    clear IH Hin Hnd Hnd'. induction cs as [|[l2 v2] cs IH]; [reflexivity|].
    simpl in *. destruct (String.eqb_spec l2 l) as [->|_].
    + exfalso. apply Hnot. now left.
    + apply IH. intros H. apply Hnot. now right.
  - destruct Hin as [Hin|Hin]; [contradiction|]. now apply IH.
Qed.

(** *** From the arrays to the points *)

(** Adding a square to the zero the row sum starts from changes nothing:
    a square is never the negative zero. *)
Lemma add_zero_square (x : F64.t) :
  F64.add F64.zero (F64.mul x x) = F64.mul x x.
Proof.
  destruct x as [s|s| |s m e]; try (now destruct s); [reflexivity|].
  unfold F64.mul, SFmul. rewrite xorb_nilpotent.
  unfold binary_round_aux.
  destruct (shr_fexp F64.prec F64.emax (Z.pos (m * m)) (e + e) loc_Exact)
    as [mrs e'].
  destruct (shr_fexp F64.prec F64.emax
              (round_nearest_even (shr_m mrs) (loc_of_shr_record mrs)) e'
              loc_Exact) as [mrs' e''].
  destruct (shr_m mrs') as [|m'|m']; try reflexivity.
  now destruct (e'' <=? F64.emax - F64.prec)%Z.
Qed.

(** The norm of the difference of two rows of three entries is the
    distance between the two points. *)
Lemma row_norm_euclid (px py pz qx qy qz : F64.t) :
  row_norm (row_sub [qx; qy; qz] [px; py; pz])
  = euclid (px, py, pz) (qx, qy, qz).
Proof.
  unfold row_norm, row_sub, euclid. cbn [combine map fold_left fst snd].
  now rewrite add_zero_square.
Qed.

Lemma combine_shift {A : Type} (f : nat -> A) : forall n a,
  combine (map f (seq (S a) n)) (map f (seq a (S n)))
  = map (fun i => (f (S i), f i)) (seq a n).
Proof.
  induction n as [|n IH]; intros a; [reflexivity|].
  change (seq (S a) (S n)) with (S a :: seq (S (S a)) n).
  change (seq a (S (S n))) with (a :: seq (S a) (S n)).
  change (seq a (S n)) with (a :: seq (S a) n).
  cbn [map combine]. now rewrite IH.
Qed.

(** The differences of an array given row by row. *)
Lemma diff_rows (row : nat -> list F64.t) (n : nat) :
  diff (map row (seq 0 n))
  = map (fun i => row_sub (row (S i)) (row i)) (seq 0 (n - 1)).
Proof.
  unfold diff. destruct n as [|n]; [reflexivity|].
  change (tl (map row (seq 0 (S n)))) with (map row (seq 1 n)).
  rewrite combine_shift, map_map, Nat.sub_succ, Nat.sub_0_r. reflexivity.
Qed.

Lemma filter_map_comm {A B : Type} (p : B -> bool) (f : A -> B) (l : list A) :
  filter p (map f l) = map f (filter (fun a => p (f a)) l).
Proof.
  induction l as [|a l IH]; simpl; [reflexivity|].
  destruct (p (f a)); simpl; now rewrite IH.
Qed.

(** The array of three numeric columns. *)
Lemma to_numpy_points float_of_str n X Y Z xs ys zs :
  to_numpy float_of_str n [(X, map Num xs); (Y, map Num ys); (Z, map Num zs)]
  = inr (map (fun i => [nth i xs F64.nan; nth i ys F64.nan; nth i zs F64.nan])
             (seq 0 n)).
Proof.
  unfold to_numpy. apply collect_rets. intros i. simpl.
  now rewrite !(map_nth Num).
Qed.

(** The kept steps of that array are the steps of finite length. *)
Lemma steps_of_points (xs ys zs : list F64.t) (n : nat) :
  filter F64.isfinite
    (map row_norm
       (diff (map (fun i => [nth i xs F64.nan; nth i ys F64.nan;
                             nth i zs F64.nan]) (seq 0 n))))
  = valid_lengths n xs ys zs.
Proof.
  rewrite diff_rows, map_map. unfold valid_lengths, valid_steps.
  rewrite <- filter_map_comm. f_equal. apply map_ext. intros i.
  apply row_norm_euclid.
Qed.

(** A step of finite length joins two points with finite coordinates. *)
Lemma euclid_finite (p q : Point) :
  F64.isfinite (euclid p q) = true -> finite_point p /\ finite_point q.
Proof.
  destruct p as [[px py] pz], q as [[qx qy] qz]. unfold euclid, finite_point.
  intros H. apply sqrt_finite, add_finite in H as [H Hz].
  apply add_finite in H as [Hx Hy].
  apply square_finite, sub_finite in Hx as [Hqx Hpx].
  apply square_finite, sub_finite in Hy as [Hqy Hpy].
  apply square_finite, sub_finite in Hz as [Hqz Hpz].
  repeat split; assumption.
Qed.

(** In a table with distinct labels a column is the only one of its
    label. *)
Lemma columns_named_the df l vs :
  NoDup (labels df) -> In (l, vs) (cols df) -> columns_named df l = [(l, vs)].
Proof.
  intros Hnd Hin.
  assert (Hl : In l (labels df)) by (apply in_map_iff; now exists (l, vs)).
  destruct (columns_named_unique df l Hnd Hl) as [vs' E].
  assert (H : In (l, vs) (columns_named df l)).
  { unfold columns_named. apply filter_In. split; [exact Hin|].
    apply String.eqb_refl. }
  rewrite E in H. destruct H as [H|[]]. now rewrite E, H.
Qed.

(** Summation in index order is a summation. *)
Lemma sum_in_order_sums : sums sum_in_order.
Proof.
  intros l. unfold sum_in_order.
  assert (H : forall l t, is_sum (terms t ++ l)%list (fold_left F64.add l (value t))).
  { clear l. induction l as [|x l IH]; intros t.
    - exists t. now rewrite app_nil_r.
    - simpl. destruct (IH (SAdd t (STerm x))) as (t' & Hp & Hv).
      exists t'. split; [|exact Hv].
      simpl in Hp. now rewrite <- app_assoc in Hp. }
  exact (H l (SZero false)).
Qed.

(** C5 fails as stated on a table that [read_vicon_csv] returns: a data
    cell that is no number stays a text, the three columns of the marker
    are resolved, and the calculator raises [ValueError]. *)
Lemma motion_quantity_counterexample :
  let lines := ["Trajectories"; "100"; ",,LSHO,,"; "Frame,Sub Frame,X,Y,Z";
                "Frame,,mm,mm,mm"; "1,0,abc,0,0"; "2,0,3,4,0"] in
  exists df,
    read_vicon_csv Plain.csv_next Plain.pd_read_csv lines = inr df
    /\ find_xyz_cols (labels df) "LSHO"
       = (Some "LSHO_X", Some "LSHO_Y", Some "LSHO_Z")
    /\ In "LSHO_X" (labels df) /\ In "LSHO_Y" (labels df)
    /\ In "LSHO_Z" (labels df)
    /\ motion_quantity_point sum_in_order Plain.float_of_str df
         "LSHO_X" "LSHO_Y" "LSHO_Z" = inl ValueError.
Proof.
  intros lines. eexists. split; [vm_compute; reflexivity|].
  split; [vm_compute; reflexivity|].
  split; [simpl; auto|]. split; [simpl; auto|]. split; [simpl; auto 6|].
  vm_compute. reflexivity.
Qed.

(** A label carried by two columns brings both into the array: the rows
    are then no points of three coordinates, and the distance returned is
    that of neither choice of the column. *)
Example motion_duplicate_label :
  let z := fun n : nat => Num (F64.of_Z (Z.of_nat n)) in
  let df := mkDataFrame 2 [("m_X", [z 0; z 3]); ("m_X", [z 0; z 4]);
                           ("m_Y", [z 0; z 0]); ("m_Z", [z 0; z 0])] in
  motion_quantity_point sum_in_order Plain.float_of_str df "m_X" "m_Y" "m_Z"
  = inr (F64.of_Z 5, 1).
Proof. vm_compute. reflexivity. Qed.

(** C5, amended.  On a table in which each of the labels [X], [Y], [Z]
    names exactly one column, holding numbers,
    [motion_quantity_point] raises nothing and returns a
    sum of the Euclidean distances between the points of temporally
    consecutive rows, taken over the steps whose computed distance is
    finite, together with the number of those steps, which is at most the
    number of rows minus one; a step with a missing or non-finite
    coordinate in either endpoint is not among them. *)
Theorem motion_quantity_point_spec
        (np_sum : list F64.t -> F64.t) (float_of_str : string -> option F64.t)
        (df : DataFrame) (X Y Z : string) (xs ys zs : list F64.t) :
  sums np_sum ->
  names_numbers df X xs ->
  names_numbers df Y ys ->
  names_numbers df Z zs ->
  exists q,
    motion_quantity_point np_sum float_of_str df X Y Z
    = inr (q, length (valid_steps (nrows df) xs ys zs))
    /\ is_sum (valid_lengths (nrows df) xs ys zs) q
    /\ length (valid_steps (nrows df) xs ys zs) <= nrows df - 1
    /\ (forall i, In i (valid_steps (nrows df) xs ys zs) ->
                  S i < nrows df
                  /\ finite_point (point xs ys zs i)
                  /\ finite_point (point xs ys zs (S i))).
Proof.
  unfold names_numbers. intros Hsum HX HY HZ.
  exists (np_sum (valid_lengths (nrows df) xs ys zs)).
  split; [|split; [apply Hsum | split]].
  - unfold motion_quantity_point. simpl.
    rewrite HX, HY, HZ. simpl.
    rewrite to_numpy_points. simpl. rewrite steps_of_points.
    unfold valid_lengths. now rewrite length_map.
  - unfold valid_steps.
    etransitivity; [apply filter_length_le|]. now rewrite length_seq.
  - intros i Hi. unfold valid_steps in Hi.
    apply filter_In in Hi as [Hi Hfin]. apply in_seq in Hi.
    split; [lia|]. now apply euclid_finite.
Qed.

Lemma motion_quantity_point_spec_witness :
  let z := fun n : nat => F64.of_Z (Z.of_nat n) in
  let xs := [z 0; z 3; F64.nan; z 1] in
  let ys := [z 0; z 4; z 4; z 1] in
  let zs := [z 0; z 0; z 0; z 1] in
  let df := mkDataFrame 4 [("Frame", map Num [z 1; z 2; z 3; z 4]);
                           ("m_X", map Num xs); ("m_Y", map Num ys);
                           ("m_Z", map Num zs)] in
  exists q,
    motion_quantity_point sum_in_order Plain.float_of_str df "m_X" "m_Y" "m_Z"
    = inr (q, 1)
    /\ is_sum [z 5] q.
Proof.
  intros z xs ys zs df.
  destruct (motion_quantity_point_spec sum_in_order Plain.float_of_str
              df "m_X" "m_Y" "m_Z" xs ys zs) as (q & Hq & Hs & _).
  - exact sum_in_order_sums.
  - reflexivity.
  - reflexivity.
  - reflexivity.
  - exists q. split; [exact Hq | exact Hs].
Defined.

Example motion_known_value :
  motion_quantity_point sum_in_order Plain.float_of_str
    (mkDataFrame 2 [("m_X", [Num (F64.of_Z 0); Num (F64.of_Z 3)]);
                    ("m_Y", [Num (F64.of_Z 0); Num (F64.of_Z 4)]);
                    ("m_Z", [Num (F64.of_Z 0); Num (F64.of_Z 0)])])
    "m_X" "m_Y" "m_Z"
  = inr (F64.of_Z 5, 1).
Proof. vm_compute. reflexivity. Qed.

Example motion_single_row :
  motion_quantity_point sum_in_order Plain.float_of_str
    (mkDataFrame 1 [("m_X", [Num (F64.of_Z 1)]); ("m_Y", [Num (F64.of_Z 2)]);
                    ("m_Z", [Num (F64.of_Z 3)])]) "m_X" "m_Y" "m_Z"
  = inr (F64.zero, 0).
Proof. vm_compute. reflexivity. Qed.

Example motion_unresolved_column :
  motion_quantity_point sum_in_order Plain.float_of_str
    (mkDataFrame 1 [("m_X", [Num (F64.of_Z 1)])]) "m_X" "m_Y" "m_Z"
  = inl KeyError.
Proof. vm_compute. reflexivity. Qed.

(** ** Decoding *)

Import Decoding.

(** [errors="replace"] never raises. *)
Lemma decode_replace_total : forall bs, exists t, decode Replace bs = inr t.
Proof.
  assert (H : forall n bs, length bs <= n -> exists t, decode Replace bs = inr t).
  { induction n as [|n IH]; intros bs Hn.
    - destruct bs; [now exists [] | simpl in Hn; lia].
    - destruct bs as [|b0 r0]; [now exists []|].
      simpl in Hn.
      assert (H0 : exists t, decode Replace r0 = inr t) by (apply IH; lia).
      assert (Hs : forall cp r, (exists t, r = inr t) ->
                                exists t, scalar cp r = inr t).
      { intros cp r [t ->]. now exists (cp :: t). }
      assert (Hi : forall r, (exists t, r = inr t) ->
                             exists t, ill_formed Replace r = inr t).
      { intros r [t ->]. now exists (REPLACEMENT :: t). }
      assert (He : exists t : list N, @ret (list N) [] = inr t)
        by now exists [].
      cbn [decode]. cbv zeta.
      repeat match goal with
             | |- exists t, scalar _ _ = inr t => apply Hs
             | |- exists t, ill_formed Replace _ = inr t => apply Hi
             | |- exists t, ret [] = inr t => exact He
             | |- exists t, decode Replace ?r = inr t =>
                 first [exact H0 | apply IH; cbn [length] in *; lia]
             | |- exists t, (if ?c then _ else _) = inr t => destruct c
             | |- exists t, match ?r with [] => _ | _ :: _ => _ end = inr t =>
                 destruct r
             end. }
  intros bs. now apply (H (length bs)).
Qed.

(** C8, evaluated on a file whose first data row holds the byte 0xFF: the
    header is read from a text in which U+FFFD stands for that byte, and
    the text [pd.read_csv] asks for does not decode. *)
Theorem invalid_byte_in_data_row :
  let header := (ascii_bytes "T" ++ [LF] ++ ascii_bytes "100" ++ [LF]
                 ++ ascii_bytes ",,m,," ++ [LF]
                 ++ ascii_bytes "Frame,Sub Frame,X,Y,Z" ++ [LF]
                 ++ ascii_bytes ",,mm,mm,mm" ++ [LF])%list in
  let file := (header ++ ascii_bytes "1,0,0," ++ [255%N]
               ++ ascii_bytes ",0" ++ [LF])%list in
  (exists t, open_header file = inr t /\ In REPLACEMENT t)
  /\ open_data header = inr header
  /\ open_data file = inl UnicodeDecodeError.
Proof.
  intros header file. split; [|split].
  - vm_compute. eexists. split; [reflexivity|].
    repeat (first [left; reflexivity | right]).
  - vm_compute. reflexivity.
  - vm_compute. reflexivity.
Qed.

(** * Further properties *)

(** ** Header width and labels *)

Lemma fill_from_length row : forall last,
  length (fill_from last row) = length row.
Proof.
  induction row as [|m row IH]; intros last; simpl; [reflexivity|].
  destruct (is_empty (strip m)); simpl; now rewrite IH.
Qed.

Lemma filled_markers_length marker_row axis_row :
  length (filled_markers marker_row axis_row)
  = Nat.max (length marker_row) (length axis_row).
Proof.
  unfold filled_markers. rewrite forward_fill_from, fill_from_length.
  apply pad_length. lia.
Qed.

(** The reconstructed header has one label per position of the wider of
    the two rows, whichever of them is the shorter one. *)
Theorem colnames_length (marker_row axis_row : list string) :
  length (colnames marker_row axis_row)
  = Nat.max (length marker_row) (length axis_row).
Proof.
  unfold colnames. fold (filled_markers marker_row axis_row).
  rewrite length_map, length_combine, filled_markers_length.
  rewrite pad_length by lia. apply Nat.min_id.
Qed.

(** A cell that is not blank is its own marker name. *)
Lemma fill_from_own row : forall last i,
  i < length row ->
  cell row i <> "" ->
  nth_error (fill_from last row) i = Some (cell row i).
Proof.
  unfold cell.
  induction row as [|m row IH]; intros last i Hi Hne; simpl in Hi; [lia|].
  destruct i as [|i]; simpl in *.
  - destruct (is_empty (strip m)) eqn:E;
      [apply is_empty_true in E; contradiction | reflexivity].
  - destruct (is_empty (strip m)); simpl; apply IH; solve [lia | exact Hne].
Qed.

(** At a position whose marker cell is not blank the marker name in use is
    that cell, trimmed, whatever was carried from the left, and the label
    is built from it. *)
Theorem own_marker_name (marker_row axis_row : list string) (i : nat) :
  i < Nat.max (length marker_row) (length axis_row) ->
  cell marker_row i <> "" ->
  nth_error (filled_markers marker_row axis_row) i = Some (cell marker_row i)
  /\ nth_error (colnames marker_row axis_row) i
     = Some (colname (cell marker_row i) (nth i axis_row "")).
Proof.
  intros Hi Hne.
  set (n := Nat.max (length marker_row) (length axis_row)) in *.
  assert (Hf : nth_error (filled_markers marker_row axis_row) i
               = Some (cell marker_row i)).
  { unfold filled_markers. fold n. rewrite forward_fill_from.
    rewrite <- (cell_pad marker_row n i).
    apply fill_from_own; [|now rewrite cell_pad].
    rewrite pad_length; [exact Hi | unfold n; lia]. }
  split; [exact Hf | now apply colnames_at].
Qed.

Lemma own_marker_name_witness :
  nth_error (colnames [""; ""; " LSHO "; ""; ""; "RSHO"]
                      ["Frame"; "Sub Frame"; "X"; "Y"; "Z"; "X"; "Y"; "Z"]) 5
  = Some "RSHO_X".
Proof.
  apply (own_marker_name [""; ""; " LSHO "; ""; ""; "RSHO"]
                         ["Frame"; "Sub Frame"; "X"; "Y"; "Z"; "X"; "Y"; "Z"] 5).
  - vm_compute. lia.
  - vm_compute. discriminate.
Defined.

(** Every position of the header has a marker name in use. *)
Lemma filled_markers_defined marker_row axis_row i :
  i < Nat.max (length marker_row) (length axis_row) ->
  exists m, nth_error (filled_markers marker_row axis_row) i = Some m.
Proof.
  intros Hi.
  destruct (nth_error (filled_markers marker_row axis_row) i) as [m|] eqn:E;
    [now exists m|].
  apply nth_error_None in E. rewrite filled_markers_length in E. lia.
Qed.

(** A position whose axis token trims to [Frame] or [Sub Frame] is labelled
    with that token, even under a marker name. *)
Theorem frame_columns_keep_label (marker_row axis_row : list string) (i : nat) :
  i < Nat.max (length marker_row) (length axis_row) ->
  strip (nth i axis_row "") = "Frame" \/ strip (nth i axis_row "") = "Sub Frame" ->
  nth_error (colnames marker_row axis_row) i = Some (strip (nth i axis_row "")).
Proof.
  intros Hi Ha.
  destruct (filled_markers_defined marker_row axis_row i Hi) as [m Hm].
  rewrite (colnames_at _ _ _ _ Hi Hm). f_equal.
  unfold colname. destruct Ha as [-> | ->]; reflexivity.
Qed.

Lemma frame_columns_keep_label_witness :
  nth_error (colnames ["Subject"; ""; "LSHO"] [" Frame"; "Sub Frame"; "X"]) 1
  = Some "Sub Frame".
Proof.
  apply (frame_columns_keep_label
           ["Subject"; ""; "LSHO"] [" Frame"; "Sub Frame"; "X"] 1).
  - vm_compute. lia.
  - right. reflexivity.
Defined.

(** ** What the resolver returns *)

(** The entry of an axis after one iteration, for a column matching it. *)
Lemma step_match token f c ax :
  col_axis token c = Some ax ->
  found_get ax (step token f c)
  = match found_get ax f with
    | None => Some c
    | Some old =>
        if (String.length (remove_spaces c) <? String.length old)%nat
        then Some c else Some old
    end.
Proof.
  unfold col_axis, step. intros ->.
  destruct (found_get ax f) as [old|] eqn:E.
  - destruct (String.length (remove_spaces c) <? String.length old)%nat;
      [apply found_get_set_same | exact E].
  - apply found_get_set_same.
Qed.

Lemma step_no_match token f c ax :
  col_axis token c <> Some ax ->
  found_get ax (step token f c) = found_get ax f.
Proof.
  intros H. destruct (step_cases token f c ax) as [E|[_ [E _]]];
    [exact E | contradiction].
Qed.

(** An axis is absent from the result exactly when no column matches it. *)
Theorem absent_iff_no_match (columns : list string) (token : string) (ax : Axis) :
  component ax (find_xyz_cols columns token) = None
  <-> (forall c, In c columns -> col_axis token c <> Some ax).
Proof.
  rewrite component_find. split.
  - intros Hnone c Hin Hc.
    now apply (find_found_some token ax c columns Hin Hc).
  - intros H. unfold find_found.
    rewrite fold_step_no_match by exact H. now destruct ax.
Qed.

(** The columns returned for two different axes are different columns. *)
Theorem axes_get_distinct_columns (columns : list string) (token : string)
        (ax ax' : Axis) (c c' : string) :
  ax <> ax' ->
  component ax (find_xyz_cols columns token) = Some c ->
  component ax' (find_xyz_cols columns token) = Some c' ->
  c <> c'.
Proof.
  rewrite !component_find. unfold find_found. intros Hne H H' ->.
  apply fold_step_matches in H as [H|[_ H]]; [destruct ax; discriminate|].
  apply fold_step_matches in H' as [H'|[_ H']]; [destruct ax'; discriminate|].
  congruence.
Qed.

Lemma axes_get_distinct_columns_witness : "m_X" <> "m_Y".
Proof.
  apply (axes_get_distinct_columns ["Frame"; "m_X"; "m_Y"; "m_Z"] "m" AX AY).
  - discriminate.
  - vm_compute. reflexivity.
  - vm_compute. reflexivity.
Defined.

(** Among labels that hold no space character the stored label is a
    shortest matching one. *)
Lemma fold_step_shortest token ax : forall columns c,
  (forall c', In c' columns -> no_space c' = true) ->
  found_get ax (fold_left (step token) columns found_empty) = Some c ->
  forall c', In c' columns -> col_axis token c' = Some ax ->
             String.length c <= String.length c'.
Proof.
  induction columns as [|x columns IH] using rev_ind; intros c Hns Hc c' Hin Hm;
    [destruct Hin|].
  rewrite fold_left_app in Hc. simpl in Hc.
  assert (Hns' : forall d, In d columns -> no_space d = true)
    by (intros d Hd; apply Hns, in_or_app; now left).
  assert (Hx : remove_spaces x = x)
    by (apply remove_spaces_id, Hns, in_or_app; right; now left).
  set (f := fold_left (step token) columns found_empty) in *.
  assert (Hdec : col_axis token x = Some ax \/ col_axis token x <> Some ax).
  { destruct (col_axis token x) as [a|]; [|right; discriminate].
    destruct (Axis_eq_dec a ax) as [->|Hne]; [now left | right; congruence]. }
  destruct Hdec as [Hmx|Hmx].
  - (* [x] matches the axis *)
    rewrite (step_match _ _ _ _ Hmx), Hx in Hc.
    apply in_app_or in Hin as [Hin|[<-|[]]].
    + destruct (found_get ax f) as [old|] eqn:Ef.
      * specialize (IH old Hns' eq_refl c' Hin Hm).
        destruct (String.length x <? String.length old)%nat eqn:Hlt;
          injection Hc as <-; [apply Nat.ltb_lt in Hlt; lia | exact IH].
      * exfalso. unfold f in Ef.
        now apply (find_found_some token ax c' columns Hin Hm).
    + destruct (found_get ax f) as [old|] eqn:Ef.
      * destruct (String.length x <? String.length old)%nat eqn:Hlt;
          injection Hc as <-; [lia | apply Nat.ltb_ge in Hlt; lia].
      * injection Hc as <-. lia.
  - (* [x] does not match the axis *)
    rewrite (step_no_match _ _ _ _ Hmx) in Hc.
    apply in_app_or in Hin as [Hin|[<-|[]]]; [|contradiction].
    now apply (IH c Hns' Hc).
Qed.

(** When no column label holds a space character, the column returned for
    an axis is a shortest one among the columns matching that axis. *)
Theorem shortest_among_space_free (columns : list string) (token : string)
        (ax : Axis) (c : string) :
  (forall c', In c' columns -> no_space c' = true) ->
  component ax (find_xyz_cols columns token) = Some c ->
  forall c', In c' columns -> col_axis token c' = Some ax ->
             String.length c <= String.length c'.
Proof.
  intros Hns Hc. rewrite component_find in Hc.
  now apply (fold_step_shortest token ax columns c Hns).
Qed.

Lemma shortest_among_space_free_witness :
  String.length "w_X" <= String.length "Subject1:w_X".
Proof.
  apply (shortest_among_space_free ["Subject1:w_X"; "w_X"; "S2:w_X"] "w" AX).
  - intros c' [<-|[<-|[<-|[]]]]; reflexivity.
  - vm_compute. reflexivity.
  - left. reflexivity.
  - vm_compute. reflexivity.
Defined.

(** ** The token *)

Lemma eq_ci_subst (t t' c : ascii) :
  eq_ci t t' = true -> eq_ci t c = eq_ci t' c.
Proof.
  unfold eq_ci. intros H. apply Ascii.eqb_eq in H. now rewrite H.
Qed.

Lemma match_literal_ci tok : forall tok' s,
  eq_ci_str tok tok' = true -> match_literal tok s = match_literal tok' s.
Proof.
  induction tok as [|t tok IH]; intros [|t' tok'] s H; try discriminate;
    [reflexivity|].
  simpl in H. apply andb_prop in H as [Ht Htok].
  destruct s as [|c s]; [reflexivity|]. simpl.
  rewrite (eq_ci_subst _ _ c Ht).
  destruct (eq_ci t' c); [now apply IH | reflexivity].
Qed.

Lemma match_tail_ci tok tok' s :
  eq_ci_str tok tok' = true -> match_tail tok s = match_tail tok' s.
Proof. intros H. unfold match_tail. now rewrite (match_literal_ci _ _ s H). Qed.

Lemma match_ws_tail_ci tok tok' :
  eq_ci_str tok tok' = true ->
  forall s, match_ws_tail tok s = match_ws_tail tok' s.
Proof.
  intros H. induction s as [|c s IH]; cbn [match_ws_tail];
    rewrite (match_tail_ci _ _ _ H); [reflexivity|].
  now rewrite IH.
Qed.

Lemma search_from_ci tok tok' :
  eq_ci_str tok tok' = true ->
  forall s at_start, search_from tok at_start s = search_from tok' at_start s.
Proof.
  intros H.
  assert (Hat : forall b s, match_at tok b s = match_at tok' b s).
  { intros b s. unfold match_at.
    rewrite (match_ws_tail_ci _ _ H s).
    destruct s as [|c s]; [reflexivity|].
    now rewrite (match_ws_tail_ci _ _ H s). }
  induction s as [|c s IH]; intros b; cbn [search_from]; rewrite Hat;
    [reflexivity|].
  now rewrite IH.
Qed.

(** The token is matched up to case: two tokens that differ only in the
    case of their letters resolve to the same columns. *)
Theorem token_case_insensitive (columns : list string) (token token' : string) :
  eq_ci_str token token' = true ->
  find_xyz_cols columns token = find_xyz_cols columns token'.
Proof.
  intros H. unfold find_xyz_cols, find_found.
  assert (Hstep : forall f c, step token f c = step token' f c).
  { intros f c. unfold step, pat_search.
    now rewrite (search_from_ci _ _ H). }
  assert (Hfold : forall f, fold_left (step token) columns f
                            = fold_left (step token') columns f).
  { induction columns as [|c columns IH]; intros f; simpl; [reflexivity|].
    now rewrite Hstep, IH. }
  now rewrite Hfold.
Qed.

Lemma token_case_insensitive_witness :
  find_xyz_cols ["P1:Poignet_D_X"; "P1:Poignet_D_Y"] "poignet_d"
  = find_xyz_cols ["P1:Poignet_D_X"; "P1:Poignet_D_Y"] "POIGNET_D".
Proof.
  apply (token_case_insensitive
           ["P1:Poignet_D_X"; "P1:Poignet_D_Y"] "poignet_d" "POIGNET_D").
  vm_compute. reflexivity.
Defined.

(** Only the space character itself matches a space of the token. *)
Lemma eq_ci_space (c : ascii) : eq_ci " " c = true -> c = " "%char.
Proof.
  destruct c as [[] [] [] [] [] [] [] []]; vm_compute; intros H;
    first [reflexivity | discriminate H].
Qed.

Lemma no_space_remove_spaces (s : string) : no_space (remove_spaces s) = true.
Proof.
  unfold no_space. induction s as [|c s IH]; simpl; [reflexivity|].
  destruct (c =? " ")%char eqn:E; [exact IH|]. simpl. now rewrite E, IH.
Qed.

Lemma no_space_tail c s : no_space (String c s) = true -> no_space s = true.
Proof. unfold no_space. simpl. intros H. now apply andb_prop in H. Qed.

(** A token with a space cannot be read in a text without spaces. *)
Lemma match_literal_space tok : forall s,
  no_space tok = false -> no_space s = true -> match_literal tok s = None.
Proof.
  unfold no_space.
  induction tok as [|t tok IH]; intros s Ht Hs; simpl in Ht; [discriminate|].
  destruct s as [|c s]; [reflexivity|]. simpl in *.
  apply andb_prop in Hs as [Hc Hs].
  destruct (eq_ci t c) eqn:E; [|reflexivity].
  destruct (t =? " ")%char eqn:Et.
  - apply Ascii.eqb_eq in Et. subst t.
    apply eq_ci_space in E. subst c. discriminate.
  - simpl in Ht. now apply IH.
Qed.

Lemma search_from_space tok :
  no_space tok = false ->
  forall s at_start, no_space s = true -> search_from tok at_start s = None.
Proof.
  intros Ht.
  assert (Htail : forall s, no_space s = true -> match_tail tok s = None).
  { intros s Hs. unfold match_tail. now rewrite match_literal_space. }
  assert (Hws : forall s, no_space s = true -> match_ws_tail tok s = None).
  { induction s as [|c s IH]; intros Hs; cbn [match_ws_tail];
      rewrite (Htail _ Hs); [reflexivity|].
    rewrite (IH (no_space_tail _ _ Hs)). now destruct (isspace c). }
  assert (Hat : forall b s, no_space s = true -> match_at tok b s = None).
  { intros b s Hs. unfold match_at. rewrite (Hws _ Hs).
    destruct s as [|c s]; [now destruct b|].
    rewrite (Hws _ (no_space_tail _ _ Hs)).
    destruct b; now destruct (c =? ":")%char. }
  induction s as [|c s IH]; intros b Hs; cbn [search_from];
    rewrite (Hat _ _ Hs); [reflexivity|].
  apply IH. exact (no_space_tail _ _ Hs).
Qed.

(** A token that holds a space character resolves to nothing, whatever the
    columns: the spaces are removed from the labels only. *)
Theorem token_with_space_unresolved (columns : list string) (token : string) :
  no_space token = false ->
  find_xyz_cols columns token = (None, None, None).
Proof.
  intros Ht. unfold find_xyz_cols, find_found.
  assert (Hstep : forall f c, step token f c = f).
  { intros f c. unfold step, pat_search.
    now rewrite (search_from_space _ Ht _ _ (no_space_remove_spaces c)). }
  assert (Hfold : forall f, fold_left (step token) columns f = f).
  { induction columns as [|c columns IH]; intros f; simpl; [reflexivity|].
    now rewrite Hstep, IH. }
  now rewrite Hfold.
Qed.

Lemma token_with_space_unresolved_witness :
  find_xyz_cols ["Patient 1:poignet D_X"; "poignet D_Y"] "poignet D"
  = (None, None, None).
Proof.
  apply (token_with_space_unresolved
           ["Patient 1:poignet D_X"; "poignet D_Y"] "poignet D").
  vm_compute. reflexivity.
Defined.

(** ** Trimmed marker names *)

Lemma lstrip_fixed c s : isspace c = false -> lstrip (String c s) = String c s.
Proof. intros H. simpl. now rewrite H. Qed.

(** [lstrip] leaves nothing to strip on the left. *)
Lemma lstrip_head (s : string) :
  lstrip s = "" \/ exists c t, lstrip s = String c t /\ isspace c = false.
Proof.
  induction s as [|c s IH]; simpl; [now left|].
  destruct (isspace c) eqn:E; [exact IH|].
  right. now exists c, s.
Qed.

Lemma rstrip_cons c t c2 r :
  rstrip t = String c2 r -> rstrip (String c t) = String c (String c2 r).
Proof. intros H. simpl. now rewrite H. Qed.

Lemma rstrip_idem (s : string) : rstrip (rstrip s) = rstrip s.
Proof.
  induction s as [|c s IH]; [reflexivity|].
  destruct (rstrip s) as [|c2 r] eqn:E.
  - simpl. rewrite E. destruct (isspace c) eqn:Ec; [reflexivity|].
    simpl. now rewrite Ec.
  - rewrite (rstrip_cons c s c2 r E). now apply rstrip_cons.
Qed.

(** [rstrip] keeps a first character that is not whitespace. *)
Lemma rstrip_head c t :
  isspace c = false -> exists t', rstrip (String c t) = String c t'.
Proof.
  intros Hc. simpl. destruct (rstrip t) as [|c2 r].
  - rewrite Hc. now exists "".
  - now exists (String c2 r).
Qed.

Lemma strip_idem (s : string) : strip (strip s) = strip s.
Proof.
  unfold strip.
  destruct (lstrip_head s) as [E|(c & t & E & Hc)]; rewrite E.
  - reflexivity.
  - destruct (rstrip_head c t Hc) as [t' Et]. rewrite Et.
    rewrite (lstrip_fixed _ _ Hc), <- Et. apply rstrip_idem.
Qed.

Lemma fill_from_trimmed row : forall last m,
  strip last = last -> In m (fill_from last row) -> strip m = m.
Proof.
  induction row as [|x row IH]; intros last m Hlast Hin; [destruct Hin|].
  simpl in Hin. destruct (is_empty (strip x)).
  - destruct Hin as [<-|Hin]; [exact Hlast | now apply (IH last)].
  - destruct Hin as [<-|Hin]; [apply strip_idem|].
    apply (IH (strip x)); [apply strip_idem | exact Hin].
Qed.

(** Every marker name in use is free of surrounding whitespace, so that the
    second trimming, in the loop that builds the labels, changes nothing. *)
Theorem marker_names_trimmed (marker_row axis_row : list string)
        (i : nat) (m : string) :
  nth_error (filled_markers marker_row axis_row) i = Some m ->
  strip m = m.
Proof.
  unfold filled_markers. rewrite forward_fill_from. intros H.
  apply nth_error_In in H.
  now apply (fill_from_trimmed _ "" m eq_refl H).
Qed.

Lemma marker_names_trimmed_witness : strip "LSHO" = "LSHO".
Proof.
  apply (marker_names_trimmed [""; ""; "  LSHO "; ""] ["Frame"] 3).
  vm_compute. reflexivity.
Defined.

(** ** From the header to the resolver *)

Lemma match_tail_exact token ax :
  match_tail token (token ++ "_" ++ axis_letter ax) = Some ax.
Proof.
  unfold match_tail. rewrite match_literal_self. now destruct ax.
Qed.

Lemma match_ws_tail_exact token ax :
  match_ws_tail token (token ++ "_" ++ axis_letter ax) = Some ax.
Proof.
  destruct token as [|t token].
  - now destruct ax.
  - change (String t token ++ "_" ++ axis_letter ax)
      with (String t (token ++ "_" ++ axis_letter ax)).
    cbn [match_ws_tail].
    rewrite match_ws_tail_short
      by (rewrite str_length_app; destruct ax; simpl; lia).
    change (String t (token ++ "_" ++ axis_letter ax))
      with (String t token ++ "_" ++ axis_letter ax).
    rewrite match_tail_exact. now destruct (isspace t).
Qed.

(** A label made of the token, an underscore and an axis letter matches
    that axis. *)
Lemma col_axis_exact token ax :
  no_space token = true ->
  col_axis token (token ++ "_" ++ axis_letter ax) = Some ax.
Proof.
  intros Ht. unfold col_axis, pat_search.
  rewrite !remove_spaces_app, (remove_spaces_id _ Ht).
  replace (remove_spaces "_" ++ remove_spaces (axis_letter ax))
    with ("_" ++ axis_letter ax) by now destruct ax.
  assert (Hm : match_at token true (token ++ "_" ++ axis_letter ax) = Some ax).
  { unfold match_at. now rewrite match_ws_tail_exact. }
  destruct (token ++ "_" ++ axis_letter ax); cbn [search_from]; now rewrite Hm.
Qed.

(** The labels that [read_vicon_csv] builds are found again by
    [find_xyz_cols]: at a position whose axis token trims to X, Y or Z,
    with a marker name in use that holds no space character, resolving
    that name over the reconstructed labels gives a column for that axis. *)
Theorem header_labels_resolve (marker_row axis_row : list string)
        (i : nat) (m : string) (ax : Axis) :
  nth_error (filled_markers marker_row axis_row) i = Some m ->
  strip (nth i axis_row "") = axis_letter ax ->
  no_space m = true ->
  nth_error (colnames marker_row axis_row) i = Some (m ++ "_" ++ axis_letter ax)
  /\ component ax (find_xyz_cols (colnames marker_row axis_row) m) <> None.
Proof.
  intros Hm Ha Hns.
  assert (Hi : i < Nat.max (length marker_row) (length axis_row)).
  { rewrite <- filled_markers_length. apply nth_error_Some. now rewrite Hm. }
  assert (Hl : nth_error (colnames marker_row axis_row) i
               = Some (m ++ "_" ++ axis_letter ax)).
  { rewrite (colnames_at _ _ _ _ Hi Hm). f_equal.
    unfold colname. rewrite Ha, (marker_names_trimmed _ _ _ _ Hm).
    now destruct ax. }
  split; [exact Hl|].
  rewrite component_find.
  apply (find_found_some m ax (m ++ "_" ++ axis_letter ax)).
  - now apply nth_error_In in Hl.
  - now apply col_axis_exact.
Qed.

Lemma header_labels_resolve_witness :
  component AZ
    (find_xyz_cols
       (colnames [""; ""; " LSHO "; ""; ""]
                 ["Frame"; "Sub Frame"; "X"; "Y"; " Z"]) "LSHO") <> None.
Proof.
  apply (header_labels_resolve [""; ""; " LSHO "; ""; ""]
                               ["Frame"; "Sub Frame"; "X"; "Y"; " Z"] 4 "LSHO" AZ).
  - vm_compute. reflexivity.
  - vm_compute. reflexivity.
  - vm_compute. reflexivity.
Defined.

(** ** Edge cases of the motion quantity *)

Lemma columns_named_absent df l :
  ~ In l (labels df) -> columns_named df l = [].
Proof.
  unfold labels, columns_named. intros H.
  induction (cols df) as [|c cs IH]; [reflexivity|].
  simpl in *. destruct (String.eqb_spec (fst c) l) as [E|_].
  - exfalso. apply H. now left.
  - apply IH. intros Hin. apply H. now right.
Qed.

Lemma select_absent df : forall ls l,
  In l ls -> ~ In l (labels df) -> select df ls = inl KeyError.
Proof.
  induction ls as [|x ls IH]; intros l Hin Hl; [destruct Hin|].
  simpl. destruct Hin as [->|Hin].
  - now rewrite (columns_named_absent df l Hl).
  - destruct (columns_named df x); [reflexivity|].
    now rewrite (IH l Hin Hl).
Qed.

(** A label that names no column of the table, such as the absent
    component of an unresolved marker, makes the calculator raise
    [KeyError]. *)
Theorem absent_column_raises (np_sum : list F64.t -> F64.t)
        (float_of_str : string -> option F64.t) (df : DataFrame)
        (X Y Z : string) :
  ~ In X (labels df) \/ ~ In Y (labels df) \/ ~ In Z (labels df) ->
  motion_quantity_point np_sum float_of_str df X Y Z = inl KeyError.
Proof.
  intros H. unfold motion_quantity_point.
  assert (Hsel : select df [X; Y; Z] = inl KeyError).
  { destruct H as [H|[H|H]].
    - apply (select_absent df _ X); [now left | exact H].
    - apply (select_absent df _ Y); [right; now left | exact H].
    - apply (select_absent df _ Z); [right; right; now left | exact H]. }
  now rewrite Hsel.
Qed.

Lemma absent_column_raises_witness :
  motion_quantity_point sum_in_order Plain.float_of_str
    (mkDataFrame 1 [("m_X", [Num F64.zero]); ("m_Y", [Num F64.zero])])
    "m_X" "m_Y" "m_Z"
  = inl KeyError.
Proof.
  apply absent_column_raises. right. right.
  simpl. intros [H|[H|[]]]; discriminate H.
Defined.

(** The conversion to floats raises nothing but [ValueError]. *)
Lemma to_float_error float_of_str c e :
  to_float float_of_str c = inl e -> e = ValueError.
Proof.
  destruct c as [x|t]; simpl; [discriminate|].
  destruct (float_of_str t); [discriminate|]. now intros [= <-].
Qed.

Lemma collect_error {A : Type} (P : PyExc -> Prop) (rs : list (Result A)) :
  (forall r e, In r rs -> r = inl e -> P e) ->
  forall e, collect rs = inl e -> P e.
Proof.
  induction rs as [|r rs IH]; simpl; intros H e He; [discriminate|].
  destruct r as [e'|a] eqn:Er.
  - simpl in He. injection He as <-. apply (H (inl e') e'); auto.
  - simpl in He. destruct (collect rs) as [e'|l] eqn:El; [|discriminate].
    simpl in He. injection He as <-.
    apply IH; [|reflexivity]. intros r' e'' Hin. apply H. now right.
Qed.

Lemma to_numpy_error float_of_str n cs e :
  to_numpy float_of_str n cs = inl e -> e = ValueError.
Proof.
  unfold to_numpy. revert e.
  apply (collect_error (fun e => e = ValueError)). intros r e' Hr Hre.
  apply in_map_iff in Hr as (i & <- & _). revert e' Hre.
  apply (collect_error (fun e => e = ValueError)). intros r' e'' Hr' Hre'.
  apply in_map_iff in Hr' as (c & <- & _).
  now apply to_float_error in Hre'.
Qed.

Lemma collect_ok {A : Type} (rs : list (Result A)) :
  (forall r, In r rs -> exists a, r = inr a) -> exists l, collect rs = inr l.
Proof.
  induction rs as [|r rs IH]; intros H; [now exists []|].
  destruct (H r (or_introl eq_refl)) as [a ->].
  destruct IH as [l Hl]; [intros r' Hr'; apply H; now right|].
  exists (a :: l). simpl. now rewrite Hl.
Qed.

(** Columns of numbers are converted without an exception. *)
Lemma to_numpy_numeric float_of_str n cs :
  (forall c, In c cs -> forallb is_num (snd c) = true) ->
  exists arr, to_numpy float_of_str n cs = inr arr.
Proof.
  intros H. unfold to_numpy. apply collect_ok. intros r Hr.
  apply in_map_iff in Hr as (i & <- & _).
  apply collect_ok. intros r' Hr'.
  apply in_map_iff in Hr' as (c & <- & Hc).
  specialize (H c Hc). rewrite forallb_forall in H.
  destruct (nth_in_or_default i (snd c) (Num F64.nan)) as [Hin|Hd].
  - specialize (H _ Hin).
    destruct (nth i (snd c) (Num F64.nan)) as [x|t];
      [now exists x | discriminate].
  - rewrite Hd. now exists F64.nan.
Qed.

Lemma select_in df : forall ls cs c,
  select df ls = inr cs -> In c cs -> In c (cols df) /\ In (fst c) ls.
Proof.
  induction ls as [|l ls IH]; simpl; intros cs c H Hin.
  - injection H as <-. destruct Hin.
  - destruct (columns_named df l) as [|c0 cs0] eqn:E; [discriminate|].
    destruct (select df ls) as [e|rest] eqn:Er; [discriminate|].
    simpl in H. injection H as <-.
    change (c0 :: cs0 ++ rest)%list with ((c0 :: cs0) ++ rest)%list in Hin.
    apply in_app_or in Hin as [Hin|Hin].
    + rewrite <- E in Hin. unfold columns_named in Hin.
      apply filter_In in Hin as [Hc He]. apply String.eqb_eq in He.
      split; [exact Hc | now left].
    + destruct (IH rest c eq_refl Hin) as [Hc Hl]. split; [exact Hc | now right].
Qed.

(** On present columns the calculator returns the sum and the count of
    the finite steps of the converted array, or raises [ValueError]; on
    columns of numbers it returns. *)
Lemma motion_outcome np_sum float_of_str df X Y Z :
  In X (labels df) -> In Y (labels df) -> In Z (labels df) ->
  ((exists arr,
       length arr = nrows df
       /\ motion_quantity_point np_sum float_of_str df X Y Z
          = inr (np_sum (finite_steps arr), length (finite_steps arr)))
   \/ motion_quantity_point np_sum float_of_str df X Y Z = inl ValueError)
  /\ (numeric_columns df X Y Z ->
      exists arr,
        length arr = nrows df
        /\ motion_quantity_point np_sum float_of_str df X Y Z
           = inr (np_sum (finite_steps arr), length (finite_steps arr))).
Proof.
  intros HX HY HZ.
  destruct (select_present df [X; Y; Z]) as (cs & Hsel & _).
  { intros l [<-|[<-|[<-|[]]]]; assumption. }
  assert (Hok : forall arr,
             to_numpy float_of_str (nrows df) cs = inr arr ->
             exists arr,
               length arr = nrows df
               /\ motion_quantity_point np_sum float_of_str df X Y Z
                  = inr (np_sum (finite_steps arr), length (finite_steps arr))).
  { intros arr Harr. exists arr. split; [now apply to_numpy_length in Harr|].
    unfold motion_quantity_point. rewrite Hsel. simpl. rewrite Harr. simpl.
    now rewrite steps_of_diff. }
  split.
  - destruct (to_numpy float_of_str (nrows df) cs) as [e|arr] eqn:Harr.
    + right. unfold motion_quantity_point. rewrite Hsel. simpl. rewrite Harr.
      simpl. now rewrite (to_numpy_error _ _ _ _ Harr).
    + left. now apply (Hok arr).
  - intros Hnum.
    destruct (to_numpy_numeric float_of_str (nrows df) cs) as [arr Harr].
    { intros c Hc. destruct (select_in df _ _ c Hsel Hc) as [H1 H2].
      now apply Hnum. }
    now apply (Hok arr).
Qed.

(** With fewer than two rows there is no step: on columns of numbers the
    result is the sum of the empty array and the count 0, and on any
    columns it is that or a [ValueError]. *)
Theorem fewer_than_two_rows (np_sum : list F64.t -> F64.t)
        (float_of_str : string -> option F64.t) (df : DataFrame)
        (X Y Z : string) :
  nrows df <= 1 ->
  In X (labels df) -> In Y (labels df) -> In Z (labels df) ->
  (motion_quantity_point np_sum float_of_str df X Y Z = inr (np_sum [], 0)
   \/ motion_quantity_point np_sum float_of_str df X Y Z = inl ValueError)
  /\ (numeric_columns df X Y Z ->
      motion_quantity_point np_sum float_of_str df X Y Z = inr (np_sum [], 0)).
Proof.
  intros Hn HX HY HZ.
  assert (Hempty : forall arr, length arr = nrows df -> finite_steps arr = []).
  { intros arr Hlen. pose proof (finite_steps_length arr) as H.
    destruct (finite_steps arr); [reflexivity | simpl in H; lia]. }
  destruct (motion_outcome np_sum float_of_str df X Y Z HX HY HZ) as [H1 H2].
  split.
  - destruct H1 as [(arr & Hlen & Hres)|H1]; [left | now right].
    now rewrite Hres, (Hempty arr Hlen).
  - intros Hnum. destruct (H2 Hnum) as (arr & Hlen & Hres).
    now rewrite Hres, (Hempty arr Hlen).
Qed.

Lemma fewer_than_two_rows_witness :
  motion_quantity_point sum_in_order Plain.float_of_str
    (mkDataFrame 1 [("m_X", [Num (F64.of_Z 1)]); ("m_Y", [Num (F64.of_Z 2)]);
                    ("m_Z", [Num F64.nan])]) "m_X" "m_Y" "m_Z"
  = inr (sum_in_order [], 0).
Proof.
  apply fewer_than_two_rows; simpl; auto.
  intros c [<-|[<-|[<-|[]]]] _; reflexivity.
Defined.

(** The difference of a finite value and itself is zero. *)
Lemma sub_self (x : F64.t) : F64.isfinite x = true -> F64.sub x x = F64.zero.
Proof.
  destruct x as [s|s| |s m e]; try discriminate; intros _.
  - now destruct s.
  - unfold F64.sub, SFsub. cbv zeta. rewrite Z.sub_diag. reflexivity.
Qed.

Lemma row_sub_self (p : list F64.t) :
  Forall (fun x => F64.isfinite x = true) p ->
  row_sub p p = map (fun _ => F64.zero) p.
Proof.
  unfold row_sub. induction 1 as [|x p Hx _ IH]; [reflexivity|].
  simpl. now rewrite (sub_self x Hx), IH.
Qed.

Lemma row_norm_zeros (p : list F64.t) :
  row_norm (map (fun _ => F64.zero) p) = F64.zero.
Proof.
  unfold row_norm. rewrite map_map.
  assert (H : fold_left F64.add
                (map (fun _ : F64.t => F64.mul F64.zero F64.zero) p) F64.zero
              = F64.zero)
    by (induction p as [|x p IH]; [reflexivity | exact IH]).
  now rewrite H.
Qed.

(** Two consecutive samples at the same finite position make a step of
    distance zero, which is finite and so is counted. *)
Theorem identical_rows_zero_step (p : list F64.t) :
  Forall (fun x => F64.isfinite x = true) p ->
  distance p p = F64.zero /\ F64.isfinite (distance p p) = true.
Proof.
  intros H. unfold distance.
  rewrite (row_sub_self p H), row_norm_zeros. now split.
Qed.

Lemma identical_rows_zero_step_witness :
  distance [F64.of_Z 3; F64.of_Z (-4); F64.zero]
           [F64.of_Z 3; F64.of_Z (-4); F64.zero] = F64.zero.
Proof.
  apply identical_rows_zero_step.
  repeat constructor.
Defined.

(** ** Dropped columns and the calculator *)

Lemma filter_filter_same {A : Type} (p : A -> bool) (l : list A) :
  filter p (filter p l) = filter p l.
Proof.
  induction l as [|x l IH]; simpl; [reflexivity|].
  destruct (p x) eqn:E; simpl; [rewrite E|]; now rewrite ?IH.
Qed.

(** Dropping the entirely missing columns a second time drops nothing. *)
Theorem dropna_all_idempotent (df : DataFrame) :
  dropna_all (dropna_all df) = dropna_all df.
Proof.
  unfold dropna_all. simpl. now rewrite filter_filter_same.
Qed.

Lemma columns_named_dropna df l :
  columns_named (dropna_all df) l
  = filter (fun c => negb (all_missing (snd c))) (columns_named df l).
Proof.
  unfold columns_named, dropna_all. simpl.
  induction (cols df) as [|c cs IH]; simpl; [reflexivity|].
  destruct (negb (all_missing (snd c))) eqn:Ek;
    destruct (fst c =? l)%string eqn:El; simpl;
    rewrite ?Ek, ?El, IH; reflexivity.
Qed.

Lemma filter_all {A : Type} (p : A -> bool) (l : list A) :
  (forall x, In x l -> p x = true) -> filter p l = l.
Proof.
  induction l as [|x l IH]; intros H; simpl; [reflexivity|].
  rewrite (H x (or_introl eq_refl)), IH; [reflexivity|].
  intros y Hy. apply H. now right.
Qed.

Lemma select_dropna df : forall ls,
  (forall c, In c (cols df) -> In (fst c) ls -> all_missing (snd c) = false) ->
  select (dropna_all df) ls = select df ls.
Proof.
  intros ls H.
  assert (Hn : forall l, In l ls ->
                         columns_named (dropna_all df) l = columns_named df l).
  { intros l Hl. rewrite columns_named_dropna. apply filter_all.
    intros c Hc. unfold columns_named in Hc. apply filter_In in Hc as [Hc He].
    apply String.eqb_eq in He. rewrite (H c Hc); [reflexivity|]. now rewrite He. }
  revert Hn. clear H. induction ls as [|l ls IH]; intros Hn; [reflexivity|].
  simpl. rewrite (Hn l (or_introl eq_refl)).
  rewrite IH; [reflexivity|]. intros l' Hl'. apply Hn. now right.
Qed.

(** When every column carrying one of the three labels holds a value that
    is not missing, the calculator gives the same result on the table
    [read_vicon_csv] returns as on the loaded table. *)
Theorem dropna_keeps_motion_quantity (np_sum : list F64.t -> F64.t)
        (float_of_str : string -> option F64.t)
        (df : DataFrame) (X Y Z : string) :
  (forall c, In c (cols df) -> In (fst c) [X; Y; Z] ->
             all_missing (snd c) = false) ->
  motion_quantity_point np_sum float_of_str (dropna_all df) X Y Z
  = motion_quantity_point np_sum float_of_str df X Y Z.
Proof.
  intros H. unfold motion_quantity_point.
  now rewrite (select_dropna df [X; Y; Z] H).
Qed.

Lemma dropna_keeps_motion_quantity_witness :
  let df := mkDataFrame 2 [("m_X", [Num (F64.of_Z 0); Num (F64.of_Z 3)]);
                           ("m_Y", [Num (F64.of_Z 0); Num (F64.of_Z 4)]);
                           ("m_Z", [Num F64.nan; Num (F64.of_Z 0)]);
                           ("m", [Num F64.nan; Num F64.nan])] in
  motion_quantity_point sum_in_order Plain.float_of_str (dropna_all df)
    "m_X" "m_Y" "m_Z"
  = motion_quantity_point sum_in_order Plain.float_of_str df
      "m_X" "m_Y" "m_Z".
Proof.
  intros df. apply dropna_keeps_motion_quantity.
  intros c [<-|[<-|[<-|[<-|[]]]]] Hl; try reflexivity.
  simpl in Hl. destruct Hl as [H|[H|[H|[]]]]; discriminate H.
Defined.

(** A marker whose column is entirely missing in the loaded table has no
    column left in the table [read_vicon_csv] returns, so the calculator
    raises [KeyError] for it instead of reporting zero steps. *)
Theorem missing_marker_raises (np_sum : list F64.t -> F64.t)
        (float_of_str : string -> option F64.t)
        (df : DataFrame) (X Y Z : string) :
  (forall vs, In (X, vs) (cols df) -> all_missing vs = true) ->
  motion_quantity_point np_sum float_of_str (dropna_all df) X Y Z
  = inl KeyError.
Proof.
  intros H. apply absent_column_raises. left.
  unfold labels. intros Hin.
  apply in_map_iff in Hin as ([l vs] & Hl & Hc). simpl in Hl. subst l.
  apply dropna_all_cols in Hc as [Hc Hv]. simpl in Hv.
  rewrite (H vs Hc) in Hv. discriminate.
Qed.

Lemma missing_marker_raises_witness :
  motion_quantity_point sum_in_order Plain.float_of_str
    (dropna_all (mkDataFrame 2 [("m_X", [Num F64.nan; Num F64.nan]);
                                ("m_Y", [Num (F64.of_Z 0); Num (F64.of_Z 4)]);
                                ("m_Z", [Num (F64.of_Z 0); Num (F64.of_Z 0)])]))
    "m_X" "m_Y" "m_Z"
  = inl KeyError.
Proof.
  apply missing_marker_raises.
  intros vs [H|[H|[H|[]]]]; [|discriminate H|discriminate H].
  injection H as <-. reflexivity.
Defined.

(** A file without data rows gives a table without columns: every column
    of an empty load counts as entirely missing. *)
Theorem no_data_rows_no_columns
        (csv_next : list string -> Result (list string * list string))
        (pd_read_csv : list string -> list string -> Result DataFrame)
        (lines names : list string) (loaded : DataFrame) :
  read_header csv_next lines = inr names ->
  pd_read_csv lines names = inr loaded ->
  (forall c, In c (cols loaded) -> snd c = []) ->
  read_vicon_csv csv_next pd_read_csv lines
  = inr (mkDataFrame (nrows loaded) []).
Proof.
  intros Hh Hl Hempty. unfold read_vicon_csv. rewrite Hh. simpl.
  rewrite Hl. simpl. unfold dropna_all. do 2 f_equal.
  induction (cols loaded) as [|c cs IH]; [reflexivity|].
  simpl. rewrite (Hempty c (or_introl eq_refl)). simpl.
  apply IH. intros c' Hc'. apply Hempty. now right.
Qed.

Lemma no_data_rows_no_columns_witness :
  read_vicon_csv Plain.csv_next Plain.pd_read_csv
    ["Trajectories"; "100"; ",,LSHO,,"; "Frame,Sub Frame,X,Y,Z";
     "Frame,,mm,mm,mm"]
  = inr (mkDataFrame 0 []).
Proof.
  apply (no_data_rows_no_columns Plain.csv_next Plain.pd_read_csv
           ["Trajectories"; "100"; ",,LSHO,,"; "Frame,Sub Frame,X,Y,Z";
            "Frame,,mm,mm,mm"]
           ["Frame"; "Sub Frame"; "LSHO_X"; "LSHO_Y"; "LSHO_Z"]
           (mkDataFrame 0 [("Frame", []); ("Sub Frame", []); ("LSHO_X", []);
                           ("LSHO_Y", []); ("LSHO_Z", [])])).
  - vm_compute. reflexivity.
  - vm_compute. reflexivity.
  - intros c [<-|[<-|[<-|[<-|[<-|[]]]]]]; reflexivity.
Defined.

(** ** The two decodings of the file *)

Lemma scalar_strict_replace cp (r r' : Result (list N)) t :
  (forall t', r = inr t' -> r' = inr t') ->
  scalar cp r = inr t -> scalar cp r' = inr t.
Proof.
  intros H. unfold scalar. destruct r as [e|t0]; [discriminate|].
  rewrite (H t0 eq_refl). exact (fun E => E).
Qed.

(** When the strict decoding that [pd.read_csv] asks for succeeds, the
    header was read from the very same text. *)
Theorem strict_text_is_header_text (file : list N) (t : list N) :
  open_data file = inr t -> open_header file = inr t.
Proof.
  unfold open_data, open_header.
  assert (H : forall n bs, length bs <= n ->
                forall t, decode Strict bs = inr t -> decode Replace bs = inr t).
  { induction n as [|n IH]; intros bs Hn t0 Hs.
    - destruct bs; [exact Hs | simpl in Hn; lia].
    - destruct bs as [|b0 r0]; [exact Hs|].
      cbn [decode] in Hs |- *. cbv zeta in Hs |- *.
      repeat match goal with
             | Hs : ill_formed Strict _ = inr _ |- _ => discriminate Hs
             | Hs : scalar ?cp (decode Strict ?r) = inr ?t
               |- scalar ?cp (decode Replace ?r) = inr ?t =>
                 apply (scalar_strict_replace cp (decode Strict r)); [|exact Hs];
                 intros t' Ht'; apply IH; [cbn [length] in *; lia | exact Ht']
             | Hs : (if ?c then _ else _) = inr _ |- _ => destruct c
             | Hs : match ?r with [] => _ | _ :: _ => _ end = inr _ |- _ =>
                 destruct r
             end. }
  intros Hs. now apply (H (length file)).
Qed.

Lemma strict_text_is_header_text_witness :
  open_header (ascii_bytes "Frame,X" ++ [195; 169; LF])%list%N
  = inr (ascii_bytes "Frame,X" ++ [233; LF])%list%N.
Proof.
  apply strict_text_is_header_text. vm_compute. reflexivity.
Defined.

(** ** Independence of the axes *)

Lemma matches_axis_spec token ax c :
  matches_axis token ax c = true <-> col_axis token c = Some ax.
Proof.
  unfold matches_axis.
  destruct (col_axis token c) as [[]|], ax; split; congruence.
Qed.

Lemma fold_step_axis_only token ax columns : forall f g,
  found_get ax f = found_get ax g ->
  found_get ax (fold_left (step token) columns f)
  = found_get ax
      (fold_left (step token) (filter (matches_axis token ax) columns) g).
Proof.
  induction columns as [|c columns IH]; intros f g Hfg; [exact Hfg|].
  simpl. destruct (matches_axis token ax c) eqn:Ec.
  - apply matches_axis_spec in Ec. simpl. apply IH.
    now rewrite !(step_match _ _ _ _ Ec), Hfg.
  - apply IH. rewrite step_no_match; [exact Hfg|].
    intros Hc. apply matches_axis_spec in Hc. congruence.
Qed.

(** Each axis is resolved on its own: the component returned for an axis
    is the one returned when the columns that do not match that axis, such
    as the frame columns and the columns of the other axes and markers, are
    left out. *)
Theorem axis_resolved_independently (columns : list string) (token : string)
        (ax : Axis) :
  component ax (find_xyz_cols columns token)
  = component ax
      (find_xyz_cols (filter (matches_axis token ax) columns) token).
Proof.
  rewrite !component_find. unfold find_found.
  now apply fold_step_axis_only.
Qed.

(** ** Cells past the axis row *)

Lemma colname_blank_axis m : strip m = m -> colname m "" = m.
Proof.
  intros Hm. unfold colname. rewrite Hm.
  change (strip "") with "". cbv beta iota zeta.
  change (("" =? "Frame") || ("" =? "Sub Frame")) with false.
  change (("" =? "X") || ("" =? "Y") || ("" =? "Z")) with false.
  cbv iota. now destruct m.
Qed.

(** A position past the end of the axis row, as a trailing delimiter of
    the marker row makes one, is labelled with the bare marker name in use
    there. *)
Theorem cells_past_axis_row (marker_row axis_row : list string) (i : nat) :
  length axis_row <= i ->
  nth_error (colnames marker_row axis_row) i
  = nth_error (filled_markers marker_row axis_row) i.
Proof.
  intros Hi.
  destruct (nth_error (filled_markers marker_row axis_row) i) as [m|] eqn:Hm.
  - assert (Hn : i < Nat.max (length marker_row) (length axis_row)).
    { rewrite <- filled_markers_length. apply nth_error_Some. now rewrite Hm. }
    rewrite (colnames_at _ _ _ _ Hn Hm), (nth_overflow axis_row "" Hi).
    f_equal. apply colname_blank_axis.
    now apply (marker_names_trimmed marker_row axis_row i).
  - apply nth_error_None. apply nth_error_None in Hm.
    now rewrite colnames_length, <- filled_markers_length.
Qed.

Lemma cells_past_axis_row_witness :
  nth_error (colnames [""; ""; "LSHO"; ""; ""; ""]
                      ["Frame"; "Sub Frame"; "X"; "Y"; "Z"]) 5
  = nth_error (filled_markers [""; ""; "LSHO"; ""; ""; ""]
                              ["Frame"; "Sub Frame"; "X"; "Y"; "Z"]) 5.
Proof.
  apply cells_past_axis_row. simpl. lia.
Defined.

(** ** From the resolver to the calculator *)

(** Columns resolved on the labels of a table are columns of that table,
    so the calculator never raises [KeyError] for them: it returns a sum
    and a count of at most the number of rows minus one, or, when one of
    the columns holds a text that is no number, raises [ValueError]; on
    columns of numbers it returns. *)
Theorem resolved_columns_accepted (np_sum : list F64.t -> F64.t)
        (float_of_str : string -> option F64.t)
        (df : DataFrame) (token X Y Z : string) :
  find_xyz_cols (labels df) token = (Some X, Some Y, Some Z) ->
  ((exists q n,
       motion_quantity_point np_sum float_of_str df X Y Z = inr (q, n)
       /\ n <= nrows df - 1)
   \/ motion_quantity_point np_sum float_of_str df X Y Z = inl ValueError)
  /\ motion_quantity_point np_sum float_of_str df X Y Z <> inl KeyError
  /\ (numeric_columns df X Y Z ->
      exists q n,
        motion_quantity_point np_sum float_of_str df X Y Z = inr (q, n)
        /\ n <= nrows df - 1).
Proof.
  intros H.
  assert (Hin : forall ax c,
             component ax (find_xyz_cols (labels df) token) = Some c ->
             In c (labels df)).
  { intros ax c Hc. rewrite component_find in Hc.
    apply fold_step_in in Hc as [Hc|Hc]; [destruct ax; discriminate | exact Hc]. }
  assert (HX : In X (labels df)) by (apply (Hin AX); now rewrite H).
  assert (HY : In Y (labels df)) by (apply (Hin AY); now rewrite H).
  assert (HZ : In Z (labels df)) by (apply (Hin AZ); now rewrite H).
  assert (Hret : forall arr,
             length arr = nrows df ->
             motion_quantity_point np_sum float_of_str df X Y Z
             = inr (np_sum (finite_steps arr), length (finite_steps arr)) ->
             exists q n,
               motion_quantity_point np_sum float_of_str df X Y Z = inr (q, n)
               /\ n <= nrows df - 1).
  { intros arr Hlen Hres. exists (np_sum (finite_steps arr)),
      (length (finite_steps arr)). split; [exact Hres|].
    rewrite <- Hlen. apply finite_steps_length. }
  destruct (motion_outcome np_sum float_of_str df X Y Z HX HY HZ) as [H1 H2].
  split; [|split].
  - destruct H1 as [(arr & Hlen & Hres)|H1]; [left | now right].
    now apply (Hret arr).
  - destruct H1 as [(arr & _ & Hres)|H1]; rewrite ?Hres, ?H1; discriminate.
  - intros Hnum. destruct (H2 Hnum) as (arr & Hlen & Hres).
    now apply (Hret arr).
Qed.

Lemma resolved_columns_accepted_witness :
  motion_quantity_point sum_in_order Plain.float_of_str
    (mkDataFrame 2 [("Frame", [Num (F64.of_Z 1); Num (F64.of_Z 2)]);
                    ("P1:m_X", [Text "abc"; Num (F64.of_Z 3)]);
                    ("P1:m_Y", [Num (F64.of_Z 0); Num (F64.of_Z 4)]);
                    ("P1:m_Z", [Num (F64.of_Z 0); Num (F64.of_Z 0)])])
    "P1:m_X" "P1:m_Y" "P1:m_Z" <> inl KeyError.
Proof.
  apply (resolved_columns_accepted sum_in_order Plain.float_of_str
           (mkDataFrame 2 [("Frame", [Num (F64.of_Z 1); Num (F64.of_Z 2)]);
                           ("P1:m_X", [Text "abc"; Num (F64.of_Z 3)]);
                           ("P1:m_Y", [Num (F64.of_Z 0); Num (F64.of_Z 4)]);
                           ("P1:m_Z", [Num (F64.of_Z 0); Num (F64.of_Z 0)])])
           "m").
  vm_compute. reflexivity.
Defined.
